(** * ESA WorldCover example notebook

    A shallow embedding of [datasets/esa-worldcover/esa-worldcover-example.ipynb].

    The notebook is a straight-line Python script that talks to three
    libraries (pystac-client, rasterio, matplotlib).  Its own code is
    embedded below cell by cell; every library call is an external
    interaction whose answer the script does not control.  A program is
    therefore a tree of external calls ([prog]), and a run of the notebook
    is a trace of calls together with the answers received ([runs]).

    Numbers are modelled as Python has them: [int] as [Z], [float] as IEEE
    binary64 (Rocq's primitive floats), [str] as [string], [dict] as a
    finite map, [list] as [list]. *)

From Stdlib Require Import ZArith List Ascii PrimFloat Uint63 Lia Bool.
From stdpp Require Import gmap strings list pretty.

Set Warnings "-inexact-float,-notation-for-abbreviation".
Open Scope Z_scope.

(** ** Python values, exceptions and built-in operations *)

Module Py.

(** Keys that appear in the [KeyError]s the notebook can provoke. *)
Inductive key : Type :=
| KStr (s : string)
| KInt (z : Z).

(** The exception classes reachable from the notebook's own expressions. *)
Inductive exn : Type :=
| IndexError
| KeyError (k : key)
| TypeError.

Inductive result (A : Type) : Type :=
| Ok (x : A)
| Raise (e : exn).
Arguments Ok {A} x.
Arguments Raise {A} e.

Definition is_ok {A} (r : result A) : bool :=
  match r with Ok _ => true | Raise _ => false end.

Definition rbind {A B} (r : result A) (f : A -> result B) : result B :=
  match r with Ok x => f x | Raise e => Raise e end.

(** [l[i]] on a list: negative indices count from the end, anything out of
    range raises [IndexError]. *)
Definition list_getitem {A} (l : list A) (i : Z) : result A :=
  let j := if i <? 0 then i + Z.of_nat (length l) else i in
  if j <? 0 then Raise IndexError
  else match l !! Z.to_nat j with
       | Some x => Ok x
       | None => Raise IndexError
       end.

(** [d[k]] on a dict: a missing key raises [KeyError(k)]. *)
Definition dict_getitem_str {V} (d : gmap string V) (k : string) : result V :=
  match d !! k with
  | Some v => Ok v
  | None => Raise (KeyError (KStr k))
  end.

Definition dict_getitem_int {V} (d : gmap Z V) (k : Z) : result V :=
  match d !! k with
  | Some v => Ok v
  | None => Raise (KeyError (KInt k))
  end.

(** [len(d)] and [range(n)]. *)
Definition len_dict {V} (d : gmap Z V) : Z := Z.of_nat (size d).
Definition range (n : Z) : list Z := map Z.of_nat (seq 0 (Z.to_nat n)).

(** [s.split(sep)] for a one-character separator: the pieces between the
    occurrences of [sep], always at least one piece. *)
Fixpoint str_split (sep : Ascii.ascii) (s : string) : list string :=
  match s with
  | EmptyString => [EmptyString]
  | String ch rest =>
      if Ascii.eqb ch sep then EmptyString :: str_split sep rest
      else match str_split sep rest with
           | [] => [String ch EmptyString]
           | piece :: pieces => String ch piece :: pieces
           end
  end.

(** A list comprehension whose element expression may raise: elements are
    evaluated left to right and the first exception aborts the whole
    comprehension. *)
Fixpoint comprehension {A B} (f : A -> result B) (xs : list A) : result (list B) :=
  match xs with
  | [] => Ok []
  | x :: xs' =>
      match f x with
      | Raise e => Raise e
      | Ok y =>
          match comprehension f xs' with
          | Raise e => Raise e
          | Ok ys => Ok (y :: ys)
          end
      end
  end.

(** Conversion of an integer array element to [float64]: valid for
    magnitudes below [2^63] (beyond that the conversion below wraps, which
    numpy does not do) and exact below [2^53]; the entries of a GeoTIFF
    colour table are far inside that range. *)
Definition float_of_int (z : Z) : float :=
  if 0 <=? z then of_uint63 (Uint63.of_Z z)
  else PrimFloat.opp (of_uint63 (Uint63.of_Z (- z))).

End Py.
Import Py.

(** ** Data model *)

(** A STAC asset and item, as far as the notebook looks into them. *)
Record Asset : Type := { href : string }.
Record Item : Type := { assets : gmap string Asset }.

(** [affine.Affine]: the six coefficients of the pixel-to-world map. *)
Module Affine.
Record t : Type := { a : float; b : float; c : float; d : float; e : float; f : float }.
End Affine.

(** [rasterio.windows.Window]. *)
Module Window.
Record t : Type := { col_off : float; row_off : float; width : float; height : float }.
End Window.

(** A two-dimensional array of integer labels, row by row. *)
Notation ndarray := (list (list Z)).

(** The GeoTIFF colour table, as rasterio hands it out, is a dict from label
    to a tuple of integer components: [gmap Z (list Z)]. *)

(** [matplotlib.colors.ListedColormap(colors)]: a colour map is the list of
    colours it was built from. *)
Record ListedColormap : Type := { colors : list (list float) }.

(** Keyword arguments of [ax.imshow]; [None] is an argument left out. *)
Record imshow_kwargs : Type := {
  kw_cmap : option ListedColormap;
  kw_vmin : option Z;
  kw_vmax : option Z;
  kw_interpolation : option string
}.

Definition no_kwargs : imshow_kwargs :=
  {| kw_cmap := None; kw_vmin := None; kw_vmax := None; kw_interpolation := None |}.

(** Library objects the script only passes around are opaque handles. *)
Definition handle : Type := nat.

Inductive Modifier : Type := sign_inplace.

(** ** External calls

    Every call below is answered; failures inside the libraries (network,
    authentication, malformed files) are not part of the model.  Arrays,
    tables and lists are values: a library call receives a copy of what it
    is handed and cannot change a variable of the notebook. *)

Inductive call : Type :=
| ClientOpen (url : string) (modifier : Modifier)
| CatalogSearch (catalog : handle) (collections : list string) (bbox : list float)
| GetItems (search : handle)
| Print (line : string)
| RasterioOpen (fp : string)
| GetTransform (src : handle)
| FromBounds (left bottom right top : float) (transform : Affine.t)
| Read (src : handle) (indexes : Z) (window : Window.t)
| Colormap (src : handle) (bidx : Z)
| Close (src : handle)
| Subplots (figsize : Z * Z)
| SetAxisOff (ax : handle)
| Imshow (ax : handle) (X : ndarray) (kw : imshow_kwargs).

(** What each call answers. *)
Definition resp (e : call) : Type :=
  match e with
  | ClientOpen _ _ => handle
  | CatalogSearch _ _ _ => handle
  | GetItems _ => list Item
  | Print _ => unit
  | RasterioOpen _ => handle
  | GetTransform _ => Affine.t
  | FromBounds _ _ _ _ _ => Window.t
  | Read _ _ _ => ndarray
  | Colormap _ _ => gmap Z (list Z)
  | Close _ => unit
  | Subplots _ => (handle * handle)%type
  | SetAxisOff _ => unit
  | Imshow _ _ _ => unit
  end.

(** ** Programs over external calls *)

Inductive prog (A : Type) : Type :=
| Ret (x : A)
| Throw (e : exn)
| Call (e : call) (k : resp e -> prog A).
Arguments Ret {A} x.
Arguments Throw {A} e.
Arguments Call {A} e k.

Fixpoint bind {A B} (p : prog A) (f : A -> prog B) : prog B :=
  match p with
  | Ret x => f x
  | Throw e => Throw e
  | Call e k => Call e (fun r => bind (k r) f)
  end.

Definition perform (e : call) : prog (resp e) := Call e Ret.

Definition lift {A} (r : result A) : prog A :=
  match r with Ok x => Ret x | Raise e => Throw e end.

(** [try: p finally: fin]: [fin] runs on the normal and on the exceptional
    exit of [p], and the outcome of [p] is kept. *)
Fixpoint finally {A} (p : prog A) (fin : prog unit) : prog A :=
  match p with
  | Ret x => bind fin (fun _ => Ret x)
  | Throw e => bind fin (fun _ => Throw e)
  | Call e k => Call e (fun r => finally (k r) fin)
  end.

(** The library entry points the notebook uses, each typed by its answer. *)
Definition client_open (url : string) (modifier : Modifier) : prog handle :=
  perform (ClientOpen url modifier).
Definition catalog_search (catalog : handle) (collections : list string) (bbox : list float)
  : prog handle := perform (CatalogSearch catalog collections bbox).
Definition get_items (search : handle) : prog (list Item) := perform (GetItems search).
Definition print (line : string) : prog unit := perform (Print line).
Definition rasterio_open (fp : string) : prog handle := perform (RasterioOpen fp).
Definition src_transform (src : handle) : prog Affine.t := perform (GetTransform src).
Definition from_bounds (x_left y_bottom x_right y_top : float) (transform : Affine.t)
  : prog Window.t := perform (FromBounds x_left y_bottom x_right y_top transform).
Definition src_read (src : handle) (indexes : Z) (window : Window.t) : prog ndarray :=
  perform (Read src indexes window).
Definition src_colormap (src : handle) (bidx : Z) : prog (gmap Z (list Z)) :=
  perform (Colormap src bidx).
Definition src_close (src : handle) : prog unit := perform (Close src).
Definition subplots (figsize : Z * Z) : prog (handle * handle) := perform (Subplots figsize).
Definition set_axis_off (ax : handle) : prog unit := perform (SetAxisOff ax).
Definition imshow (ax : handle) (X : ndarray) (kw : imshow_kwargs) : prog unit :=
  perform (Imshow ax X kw).

Declare Scope prog_scope.
Delimit Scope prog_scope with prog.
Notation "'let*' x ':=' p 'in' q" := (bind p (fun x => q))
  (at level 10, x pattern, p at level 100, q at level 200) : prog_scope.
Notation "p ';;' q" := (bind p (fun _ => q))
  (at level 100, q at level 200, right associativity) : prog_scope.

(** [with rasterio.open(fp) as src: body] *)
Definition with_rasterio_open {A} (fp : string) (body : handle -> prog A) : prog A :=
  (let* src := rasterio_open fp in
   finally (body src) (src_close src))%prog.

(** ** The notebook, cell by cell *)

(** [bbox_of_interest = [33.984, 0.788, 34.902, 1.533]] *)
Definition bbox_of_interest : list float := [33.984; 0.788; 34.902; 1.533]%float.

(** Catalog search:
    [catalog = pystac_client.Client.open(url, modifier=planetary_computer.sign_inplace)],
    [search = catalog.search(collections=["esa-worldcover"], bbox=bbox_of_interest)],
    [items = list(search.get_items())], then the count is printed. *)
Definition cell_search : prog (list Item) :=
  (let* catalog := client_open "https://planetarycomputer.microsoft.com/api/stac/v1" sign_inplace in
   let* search := catalog_search catalog ["esa-worldcover"%string] bbox_of_interest in
   let* items := get_items search in
   print ("Returned " +:+ pretty (length items) +:+ " Items") ;;
   Ret items)%prog.

(** [items[0].assets["map"].href] *)
Definition first_map_href (items : list Item) : result string :=
  rbind (list_getitem items 0) (fun item =>
  rbind (dict_getitem_str (assets item) "map") (fun asset =>
  Ok (href asset))).

(** [asset_href.split("?")[0]] *)
Definition unsigned_part (asset_href : string) : result string :=
  list_getitem (str_split "?"%char asset_href) 0.

(** [asset_href = items[0].assets["map"].href] and
    [print(asset_href.split("?")[0])]. *)
Definition cell_asset_href (items : list Item) : prog string :=
  (let* asset_href := lift (first_map_href items) in
   let* shown := lift (unsigned_part asset_href) in
   print shown ;;
   Ret asset_href)%prog.

(** [windows.from_bounds(transform=transform, *args)]: the starred list
    supplies [left, bottom, right, top]; any other number of elements does
    not fit the signature. *)
Definition from_bounds_star (args : list float) (transform : Affine.t) : prog Window.t :=
  match args with
  | [x_left; y_bottom; x_right; y_top] => from_bounds x_left y_bottom x_right y_top transform
  | _ => Throw TypeError
  end.

(** First rendering: windowed read of band 1, shown with the default
    colour scale. *)
Definition cell_render_raw (asset_href : string) : prog (Window.t * ndarray) :=
  (let* (aoi_window, raster_data) :=
     with_rasterio_open asset_href (fun src =>
       let* transform := src_transform src in
       let* aoi_window := from_bounds_star bbox_of_interest transform in
       let* raster_data := src_read src 1 aoi_window in
       Ret (aoi_window, raster_data)) in
   let* (fig, ax) := subplots (12, 12) in
   set_axis_off ax ;;
   imshow ax raster_data no_kwargs ;;
   Ret (aoi_window, raster_data))%prog.

(** [np.array(t) / k]: every element is converted to [float64] and divided. *)
Definition np_divide (t : list Z) (k : Z) : list float :=
  map (fun v => (float_of_int v / float_of_int k)%float) t.

(** [[np.array(colormap_def[i]) / 255 for i in range(len(colormap_def))]] *)
Definition normalize_colormap (colormap_def : gmap Z (list Z)) : result (list (list float)) :=
  comprehension
    (fun i => rbind (dict_getitem_int colormap_def i) (fun t => Ok (np_divide t 255)))
    (range (len_dict colormap_def)).

(** The keyword arguments of the second [imshow] call. *)
Definition colormap_kwargs (colormap_def : gmap Z (list Z)) (cmap : ListedColormap)
  : imshow_kwargs :=
  {| kw_cmap := Some cmap;
     kw_vmin := Some 0;
     kw_vmax := Some (len_dict colormap_def - 1);
     kw_interpolation := Some "nearest"%string |}.

(** Second rendering: the colour table of band 1 is read from the file,
    scaled to the unit range and used as a listed colour map. *)
Definition cell_render_colormap (asset_href : string) (raster_data : ndarray)
  : prog (gmap Z (list Z) * list (list float) * ListedColormap) :=
  (let* (colormap_def, colormap) :=
     with_rasterio_open asset_href (fun src =>
       let* colormap_def := src_colormap src 1 in
       let* colormap := lift (normalize_colormap colormap_def) in
       Ret (colormap_def, colormap)) in
   let cmap := {| colors := colormap |} in
   let* (fig, ax) := subplots (12, 12) in
   set_axis_off ax ;;
   imshow ax raster_data (colormap_kwargs colormap_def cmap) ;;
   Ret (colormap_def, colormap, cmap))%prog.

(** The variables the notebook has bound when its last cell is done. *)
Record namespace : Type := {
  items : list Item;
  asset_href : string;
  aoi_window : Window.t;
  raster_data : ndarray;
  colormap_def : gmap Z (list Z);
  colormap : list (list float);
  cmap : ListedColormap
}.

Definition notebook : prog namespace :=
  (let* items := cell_search in
   let* asset_href := cell_asset_href items in
   let* (aoi_window, raster_data) := cell_render_raw asset_href in
   let* (colormap_def, colormap, cmap) := cell_render_colormap asset_href raster_data in
   Ret {| items := items; asset_href := asset_href; aoi_window := aoi_window;
          raster_data := raster_data; colormap_def := colormap_def;
          colormap := colormap; cmap := cmap |})%prog.

(** ** Runs *)

(** One external interaction: the call made and the answer received. *)
Inductive event : Type := Ev (e : call) (r : resp e).

Definition trace : Type := list event.

(** [runs p t out]: [p] can make exactly the calls of [t], receive the
    answers recorded there, and end with [out]. *)
Fixpoint runs {A} (p : prog A) (t : trace) (out : result A) : Prop :=
  match p with
  | Ret x => t = [] /\ out = Ok x
  | Throw e => t = [] /\ out = Raise e
  | Call e k => exists (r : resp e) (t' : trace), t = Ev e r :: t' /\ runs (k r) t' out
  end.

(** An environment answers the [n]-th call of a run. *)
Definition environment : Type := nat -> forall e : call, resp e.

Fixpoint exec {A} (env : environment) (n : nat) (p : prog A) : trace * result A :=
  match p with
  | Ret x => ([], Ok x)
  | Throw e => ([], Raise e)
  | Call e k =>
      let r := env n e in
      let '(t, out) := exec env (S n) (k r) in
      (Ev e r :: t, out)
  end.

(** ** Reading traces *)

Definition call_of (ev : event) : call := match ev with Ev e _ => e end.

(** The bounding boxes handed to the catalog search. *)
Definition search_bboxes (t : trace) : list (list float) :=
  omap (fun ev => match call_of ev with
                  | CatalogSearch _ _ bbox => Some bbox
                  | _ => None
                  end) t.

(** The bounds handed to the window computation, with the transform. *)
Definition from_bounds_calls (t : trace) : list (list float * Affine.t) :=
  omap (fun ev => match call_of ev with
                  | FromBounds x_left y_bottom x_right y_top transform =>
                      Some ([x_left; y_bottom; x_right; y_top], transform)
                  | _ => None
                  end) t.

(** The item lists the catalog answered. *)
Definition items_answers (t : trace) : list (list Item) :=
  omap (fun ev => match ev return option (list Item) with
                  | Ev (GetItems _) its => Some its
                  | _ => None
                  end) t.

(** The lines printed. *)
Definition printed (t : trace) : list string :=
  omap (fun ev => match call_of ev with Print line => Some line | _ => None end) t.

(** The raster opens: the path opened and the dataset handle obtained. *)
Definition opens (t : trace) : list (string * handle) :=
  omap (fun ev => match ev return option (string * handle) with
                  | Ev (RasterioOpen fp) src => Some (fp, src)
                  | _ => None
                  end) t.

(** The transforms the datasets answered. *)
Definition transforms (t : trace) : list (handle * Affine.t) :=
  omap (fun ev => match ev return option (handle * Affine.t) with
                  | Ev (GetTransform src) tr => Some (src, tr)
                  | _ => None
                  end) t.

(** The windows computed: the bounds, the transform, and the window answered. *)
Definition windows (t : trace) : list (list float * Affine.t * Window.t) :=
  omap (fun ev => match ev return option (list float * Affine.t * Window.t) with
                  | Ev (FromBounds x_left y_bottom x_right y_top transform) w =>
                      Some ([x_left; y_bottom; x_right; y_top], transform, w)
                  | _ => None
                  end) t.

(** The arrays a call is handed. *)
Definition array_args (e : call) : list ndarray :=
  match e with
  | Imshow _ X _ => [X]
  | _ => []
  end.

(** The band reads: dataset, band index, window, and the array answered. *)
Definition reads (t : trace) : list (handle * Z * Window.t * ndarray) :=
  omap (fun ev => match ev return option (handle * Z * Window.t * ndarray) with
                  | Ev (Read src indexes window) data => Some (src, indexes, window, data)
                  | _ => None
                  end) t.

(** The colour-table reads: dataset, band index, and the table answered. *)
Definition colormap_reads (t : trace) : list (handle * Z * gmap Z (list Z)) :=
  omap (fun ev => match ev return option (handle * Z * gmap Z (list Z)) with
                  | Ev (Colormap src bidx) table => Some (src, bidx, table)
                  | _ => None
                  end) t.

(** The rendering calls: the array shown and the keyword arguments. *)
Definition imshows (t : trace) : list (ndarray * imshow_kwargs) :=
  omap (fun ev => match call_of ev with
                  | Imshow _ X kw => Some (X, kw)
                  | _ => None
                  end) t.

(** ** Answers as plain values *)

(** Every answer, whatever call it belongs to, is one of these. *)
Inductive value : Type :=
| VNone
| VHandle (h : handle)
| VItems (its : list Item)
| VAffine (tr : Affine.t)
| VWindow (w : Window.t)
| VArray (X : ndarray)
| VTable (table : gmap Z (list Z))
| VAxes (fig_ax : handle * handle).

Definition to_value (e : call) : resp e -> value :=
  match e return resp e -> value with
  | ClientOpen _ _ => VHandle
  | CatalogSearch _ _ _ => VHandle
  | GetItems _ => VItems
  | Print _ => fun _ => VNone
  | RasterioOpen _ => VHandle
  | GetTransform _ => VAffine
  | FromBounds _ _ _ _ _ => VWindow
  | Read _ _ _ => VArray
  | Colormap _ _ => VTable
  | Close _ => fun _ => VNone
  | Subplots _ => VAxes
  | SetAxisOff _ => fun _ => VNone
  | Imshow _ _ _ => fun _ => VNone
  end.

Definition as_handle (v : value) : handle :=
  match v with VHandle h => h | _ => 0%nat end.

Definition from_value (e : call) (v : value) : resp e :=
  match e return resp e with
  | ClientOpen _ _ => as_handle v
  | CatalogSearch _ _ _ => as_handle v
  | GetItems _ => match v with VItems its => its | _ => [] end
  | Print _ => tt
  | RasterioOpen _ => as_handle v
  | GetTransform _ =>
      match v with
      | VAffine tr => tr
      | _ => {| Affine.a := 0; Affine.b := 0; Affine.c := 0;
                Affine.d := 0; Affine.e := 0; Affine.f := 0 |}
      end
  | FromBounds _ _ _ _ _ =>
      match v with
      | VWindow w => w
      | _ => {| Window.col_off := 0; Window.row_off := 0;
                Window.width := 0; Window.height := 0 |}
      end
  | Read _ _ _ => match v with VArray X => X | _ => [] end
  | Colormap _ _ => match v with VTable table => table | _ => ∅ end
  | Close _ => tt
  | Subplots _ => match v with VAxes fig_ax => fig_ax | _ => (0%nat, 0%nat) end
  | SetAxisOff _ => tt
  | Imshow _ _ _ => tt
  end.

(** The answers of a trace, in order. *)
Definition responses (t : trace) : list value :=
  map (fun ev => match ev with Ev e r => to_value e r end) t.

(** The environment that replays a list of answers. *)
Definition replay (vs : list value) : environment :=
  fun n e => from_value e (nth n vs VNone).

(** ** A recorded session

    The answers below follow the outputs stored in the notebook: one item
    whose "map" asset is a signed URL on the WorldCover container. *)

Definition demo_href : string :=
  "https://ai4edataeuwest.blob.core.windows.net/esa-worldcover/v100/2020/map/ESA_WorldCover_10m_2020_v100_N00E033_Map.tif?st=2022-06-01&sig=abc".

Definition demo_item : Item :=
  {| assets := {[ "map"%string := {| href := demo_href |} ]} |}.

Definition demo_table : gmap Z (list Z) :=
  {[ 0 := [0; 0; 0; 255];
     1 := [0; 100; 0; 255];
     2 := [255; 187; 34; 255];
     3 := [0; 0; 0; 255] ]}.

Definition demo_data : ndarray := [[1; 2]; [2; 1]; [0; 3]].

Definition demo_transform : Affine.t :=
  {| Affine.a := 0.5; Affine.b := 0; Affine.c := 33;
     Affine.d := 0; Affine.e := -0.5; Affine.f := 3 |}.

Definition demo_window : Window.t :=
  {| Window.col_off := 1.5; Window.row_off := 2.5; Window.width := 2; Window.height := 3 |}.

(** The answers of a session whose library handles are numbered from [h]. *)
Definition session_answers (h : handle) : list value :=
  [ VHandle (h + 1)%nat; VHandle (h + 2)%nat; VItems [demo_item]; VNone; VNone;
    VHandle (h + 3)%nat; VAffine demo_transform; VWindow demo_window;
    VArray demo_data; VNone;
    VAxes (h + 4, h + 5)%nat; VNone; VNone;
    VHandle (h + 6)%nat; VTable demo_table; VNone;
    VAxes (h + 7, h + 8)%nat; VNone; VNone ].

Definition demo_answers : list value := session_answers 0%nat.

Definition demo_trace : trace := fst (exec (replay demo_answers) 0 notebook).
Definition demo_outcome : result namespace := snd (exec (replay demo_answers) 0 notebook).

(** The same session with other handles. *)
Definition other_trace : trace := fst (exec (replay (session_answers 10%nat)) 0 notebook).
Definition other_outcome : result namespace :=
  snd (exec (replay (session_answers 10%nat)) 0 notebook).

(** A catalog that finds nothing. *)
Definition empty_answers : list value := [ VHandle 1%nat; VHandle 2%nat; VItems [] ].

(** ** The three kinds of run

    The notebook has no branch of its own; a run ends early only where one
    of its expressions raises.  That leaves three kinds of run. *)

Definition search_events (catalog search : handle) (its : list Item) : trace :=
  [ Ev (ClientOpen "https://planetarycomputer.microsoft.com/api/stac/v1" sign_inplace) catalog;
    Ev (CatalogSearch catalog ["esa-worldcover"%string] bbox_of_interest) search;
    Ev (GetItems search) its;
    Ev (Print ("Returned " +:+ pretty (length its) +:+ " Items")) tt ].

Definition raw_events (fp : string) (src : handle) (tr : Affine.t) (w : Window.t)
    (X : ndarray) (fig ax : handle) : trace :=
  [ Ev (RasterioOpen fp) src;
    Ev (GetTransform src) tr;
    Ev (FromBounds 33.984 0.788 34.902 1.533 tr) w;
    Ev (Read src 1 w) X;
    Ev (Close src) tt;
    Ev (Subplots (12, 12)) (fig, ax);
    Ev (SetAxisOff ax) tt;
    Ev (Imshow ax X no_kwargs) tt ].

Definition table_events (fp : string) (src : handle) (table : gmap Z (list Z)) : trace :=
  [ Ev (RasterioOpen fp) src;
    Ev (Colormap src 1) table;
    Ev (Close src) tt ].

Definition colormap_events (X : ndarray) (table : gmap Z (list Z))
    (cm : list (list float)) (fig ax : handle) : trace :=
  [ Ev (Subplots (12, 12)) (fig, ax);
    Ev (SetAxisOff ax) tt;
    Ev (Imshow ax X (colormap_kwargs table {| colors := cm |})) tt ].

Inductive notebook_run : trace -> result namespace -> Prop :=
| run_no_asset catalog search its e :
    first_map_href its = Raise e ->
    notebook_run (search_events catalog search its) (Raise e)
| run_bad_table catalog search its fp shown src tr w X fig ax src' table e :
    first_map_href its = Ok fp ->
    unsigned_part fp = Ok shown ->
    normalize_colormap table = Raise e ->
    notebook_run
      (search_events catalog search its ++ [Ev (Print shown) tt]
       ++ raw_events fp src tr w X fig ax ++ table_events fp src' table)
      (Raise e)
| run_complete catalog search its fp shown src tr w X fig ax src' table cm fig' ax' :
    first_map_href its = Ok fp ->
    unsigned_part fp = Ok shown ->
    normalize_colormap table = Ok cm ->
    notebook_run
      (search_events catalog search its ++ [Ev (Print shown) tt]
       ++ raw_events fp src tr w X fig ax ++ table_events fp src' table
       ++ colormap_events X table cm fig' ax')
      (Ok {| items := its; asset_href := fp; aoi_window := w; raster_data := X;
             colormap_def := table; colormap := cm; cmap := {| colors := cm |} |}).

(** ** Reference definitions for the asset URL *)

(** The URL with everything from the first ['?'] onward removed. *)
Fixpoint strip_query (url : string) : string :=
  match url with
  | EmptyString => EmptyString
  | String ch rest => if Ascii.eqb ch "?" then EmptyString else String ch (strip_query rest)
  end.

(** ** Reference definitions for the colour table *)

(** One component, scaled. *)
Definition unit_scale (v : Z) : float := (float_of_int v / float_of_int 255)%float.

(** Checks run on every byte value to decide facts about [float64]
    division by 255. *)
Definition byte_scaled_in_unit (v : Z) : bool :=
  PrimFloat.leb 0 (unit_scale v) && PrimFloat.leb (unit_scale v) 1.

Definition byte_order_kept (u v : Z) : bool :=
  Bool.eqb (PrimFloat.ltb (unit_scale u) (unit_scale v)) (u <? v)
  && Bool.eqb (PrimFloat.eqb (unit_scale u) (unit_scale v)) (u =? v).


(** ** The renderer *)

(** Modelled from the spec: the renderer behind [ax.imshow] is matplotlib,
    which is not part of this repository.  The model follows the rendering
    contract of the specification (section 4.3) and the notebook's
    rendering notes: with nearest-neighbour interpolation a display pixel
    shows one source pixel, the one whose cell contains its centre, and a
    label is mapped through the value bounds to one entry of the listed
    colour map, with no blending; labels below or above the bounds take the
    first or the last entry.  Arithmetic is exact. *)
Definition nearest_source (n_src n_out i : nat) : nat :=
  ((2 * i + 1) * n_src / (2 * n_out))%nat.

(** Modelled from the spec: the label shown at display pixel [(r, c)] of a
    [rows] x [cols] display of the array [X]. *)
Definition sample_nearest (X : ndarray) (rows cols r c : nat) : option Z :=
  match X !! nearest_source (length X) rows r with
  | Some row => row !! nearest_source (length row) cols c
  | None => None
  end.

(** Modelled from the spec: the entry of an [N]-colour listed map that the
    label [v] selects under the bounds [vmin], [vmax]: the interval
    [vmin .. vmax] is scaled linearly onto [0 .. N] and the result is
    clipped to the last index. *)
Definition cmap_index (N vmin vmax v : Z) : Z :=
  Z.max 0 (Z.min (N - 1) ((v - vmin) * N / (vmax - vmin))).

(** Modelled from the spec: the colour at display pixel [(r, c)] for a call
    with a listed colour map, both bounds and [interpolation="nearest"];
    other combinations of arguments are outside the model. *)
Definition displayed (X : ndarray) (kw : imshow_kwargs) (rows cols r c : nat)
  : option (list float) :=
  match kw_cmap kw, kw_vmin kw, kw_vmax kw, kw_interpolation kw with
  | Some lc, Some vmin, Some vmax, Some mode =>
      if String.eqb mode "nearest" then
        match sample_nearest X rows cols r c with
        | Some v =>
            colors lc !! Z.to_nat (cmap_index (Z.of_nat (length (colors lc))) vmin vmax v)
        | None => None
        end
      else None
  | _, _, _, _ => None
  end.

(** ** More readers of traces *)

(** The datasets closed, in order. *)
Definition closes (t : trace) : list handle :=
  omap (fun ev => match call_of ev with Close src => Some src | _ => None end) t.

(** The catalog opens: endpoint, modifier, and the catalog answered. *)
Definition catalog_opens (t : trace) : list (string * Modifier * handle) :=
  omap (fun ev => match ev return option (string * Modifier * handle) with
                  | Ev (ClientOpen url modifier) catalog => Some (url, modifier, catalog)
                  | _ => None
                  end) t.

(** The searches: the catalog searched, the collections, and the search answered. *)
Definition searches (t : trace) : list (handle * list string * handle) :=
  omap (fun ev => match ev return option (handle * list string * handle) with
                  | Ev (CatalogSearch catalog collections _) search =>
                      Some (catalog, collections, search)
                  | _ => None
                  end) t.

(** The searches whose items were fetched. *)
Definition items_requests (t : trace) : list handle :=
  omap (fun ev => match call_of ev with GetItems search => Some search | _ => None end) t.

(** The figures created: size, and the figure and axes answered. *)
Definition figures (t : trace) : list (Z * Z * (handle * handle)) :=
  omap (fun ev => match ev return option (Z * Z * (handle * handle)) with
                  | Ev (Subplots figsize) fig_ax => Some (figsize, fig_ax)
                  | _ => None
                  end) t.



(** ** Dataset lifetime *)

(** The dataset an event opens. *)
Definition opened_by (ev : event) : option handle :=
  match ev return option handle with
  | Ev (RasterioOpen _) src => Some src
  | _ => None
  end.

(** The dataset a call works on, and whether the call is its close. *)
Definition dataset_use (e : call) : option (handle * bool) :=
  match e with
  | GetTransform src => Some (src, false)
  | Read src _ _ => Some (src, false)
  | Colormap src _ => Some (src, false)
  | Close src => Some (src, true)
  | _ => None
  end.

(** The calls into the plotting library. *)
Definition is_plot_call (e : call) : bool :=
  match e with
  | Subplots _ | SetAxisOff _ | Imshow _ _ _ => true
  | _ => false
  end.

(** [lifetime_ok cur t] walks [t] with [cur] the dataset open so far: a
    dataset is opened only while none is open; a dataset is queried, read
    or closed only while it is the open one; nothing is plotted while a
    dataset is open; nothing is open when [t] ends. *)
Fixpoint lifetime_ok (cur : option handle) (t : trace) : bool :=
  match t with
  | [] => match cur with None => true | Some _ => false end
  | ev :: t' =>
      match opened_by ev with
      | Some src =>
          match cur with
          | None => lifetime_ok (Some src) t'
          | Some _ => false
          end
      | None =>
          match dataset_use (call_of ev) with
          | Some (src, closing) =>
              match cur with
              | Some open_src =>
                  Nat.eqb src open_src
                  && lifetime_ok (if closing then None else cur) t'
              | None => false
              end
          | None =>
              match cur with
              | Some _ => negb (is_plot_call (call_of ev)) && lifetime_ok cur t'
              | None => lifetime_ok cur t'
              end
          end
      end
  end.

(** ** Reference definitions for [str.split] *)

(** [sep.join(pieces)] for a one-character separator. *)
Fixpoint str_join (sep : Ascii.ascii) (pieces : list string) : string :=
  match pieces with
  | [] => EmptyString
  | [piece] => piece
  | piece :: rest => piece +:+ String sep (str_join sep rest)
  end.

(** The number of occurrences of a character. *)
Fixpoint count_char (ch : Ascii.ascii) (s : string) : nat :=
  match s with
  | EmptyString => 0
  | String ch' rest => (if Ascii.eqb ch' ch then 1 else 0) + count_char ch rest
  end.

(** ** A session whose colour table has a hole *)

Definition holed_table : gmap Z (list Z) :=
  {[ 0 := [0; 0; 0; 255]; 1 := [0; 100; 0; 255]; 3 := [255; 187; 34; 255] ]}.

Definition holed_answers : list value :=
  [ VHandle 1%nat; VHandle 2%nat; VItems [demo_item]; VNone; VNone;
    VHandle 3%nat; VAffine demo_transform; VWindow demo_window;
    VArray demo_data; VNone;
    VAxes (4, 5)%nat; VNone; VNone;
    VHandle 6%nat; VTable holed_table; VNone ].

Definition holed_trace : trace := fst (exec (replay holed_answers) 0 notebook).
Definition holed_outcome : result namespace := snd (exec (replay holed_answers) 0 notebook).

(** ** Figures in a trace *)



(** * Properties *)

(** ** The Python operations on small inputs *)

Example str_split_signed :
  str_split "?" "a/b.tif?st=1&sig=2" = ["a/b.tif"; "st=1&sig=2"]%string.
Proof. reflexivity. Qed.

Example str_split_every_occurrence : str_split "?" "a?b?c" = ["a"; "b"; "c"]%string.
Proof. reflexivity. Qed.

Example str_split_empty : str_split "?" "" = [""%string].
Proof. reflexivity. Qed.

Example list_getitem_from_end : list_getitem [10; 20; 30] (-1) = Ok 30.
Proof. reflexivity. Qed.

Example list_getitem_past_end : list_getitem [10; 20; 30] 3 = Raise IndexError.
Proof. reflexivity. Qed.

Example list_getitem_before_start : list_getitem [10; 20; 30] (-4) = Raise IndexError.
Proof. reflexivity. Qed.

Example range_3 : range 3 = [0; 1; 2].
Proof. reflexivity. Qed.

Example np_divide_green : np_divide [0; 100; 0; 255] 255 = [0; 0.39215686274509803; 0; 1]%float.
Proof. reflexivity. Qed.

(** A table with a hole: the comprehension stops at the first missing label. *)
Example normalize_colormap_hole :
  normalize_colormap {[ 0 := [0; 0; 0; 255]; 2 := [255; 187; 34; 255] ]}
  = Raise (KeyError (KInt 1)).
Proof. reflexivity. Qed.

Example cmap_index_256 :
  map (cmap_index 256 0 255) [-3; 0; 10; 254; 255; 300] = [0; 0; 10; 254; 255; 255].
Proof. reflexivity. Qed.

(** The recorded session completes, and prints what the notebook stores as
    the output of its cells. *)
Example demo_completes : is_ok demo_outcome = true /\ length demo_trace = 19%nat.
Proof. split; reflexivity. Qed.

Example demo_first_line : printed demo_trace !! 0%nat = Some "Returned 1 Items"%string.
Proof. reflexivity. Qed.

(** ** Runs and environments *)

Lemma from_to_value (e : call) (r : resp e) : from_value e (to_value e r) = r.
Proof. destruct e; simpl; try reflexivity; destruct r; reflexivity. Qed.

Lemma exec_runs {A} (p : prog A) (env : environment) (n : nat) :
  runs p (fst (exec env n p)) (snd (exec env n p)).
Proof.
  revert n. induction p as [x | e | e k IH]; intros n; simpl; auto.
  specialize (IH (env n e) (S n)).
  destruct (exec env (S n) (k (env n e))) as [t out]; simpl in *.
  exists (env n e), t. split; [reflexivity | exact IH].
Qed.

Lemma runs_exec_from {A} (p : prog A) (env : environment) :
  forall (t : trace) (out : result A) (n : nat),
    runs p t out ->
    (forall (i : nat) (e : call), (i < length t)%nat ->
       env (n + i)%nat e = from_value e (nth i (responses t) VNone)) ->
    exec env n p = (t, out).
Proof.
  induction p as [x | e | e k IH]; intros t out n Hrun Henv; simpl in Hrun.
  - destruct Hrun as [-> ->]. reflexivity.
  - destruct Hrun as [-> ->]. reflexivity.
  - destruct Hrun as (r & t' & -> & Hrun). simpl.
    assert (Hr : env n e = r).
    { specialize (Henv 0%nat e). rewrite Nat.add_0_r in Henv.
      rewrite Henv by (simpl; lia). simpl. apply from_to_value. }
    rewrite Hr. rewrite (IH r t' out (S n) Hrun); [reflexivity |].
    intros i e' Hi. replace (S n + i)%nat with (n + S i)%nat by lia.
    rewrite Henv by (simpl; lia). reflexivity.
Qed.

(** Every run is the execution against the replay of its own answers. *)
Lemma runs_exec {A} (p : prog A) (t : trace) (out : result A) :
  runs p t out -> exec (replay (responses t)) 0 p = (t, out).
Proof.
  intros Hrun. apply runs_exec_from; [exact Hrun |].
  intros i e _. reflexivity.
Qed.

Lemma demo_runs : runs notebook demo_trace demo_outcome.
Proof. apply exec_runs. Qed.

(** ** Characterisation of the runs *)

(** [str.split] always returns at least one piece, so [[0]] cannot fail. *)
Lemma str_split_cons (sep : Ascii.ascii) (s : string) :
  exists piece pieces, str_split sep s = piece :: pieces.
Proof.
  induction s as [| ch rest IH]; simpl; [eauto |].
  destruct (Ascii.eqb ch sep); [eauto |].
  destruct IH as (piece & pieces & ->). eauto.
Qed.

Lemma unsigned_part_ok (fp : string) : exists shown, unsigned_part fp = Ok shown.
Proof.
  unfold unsigned_part. destruct (str_split_cons "?" fp) as (piece & pieces & ->).
  exists piece. reflexivity.
Qed.

(** One step of a run: name the answer to the next call, or finish. *)
Ltac run_end H :=
  simpl in H; destruct H as [-> ->].

Tactic Notation "run_step" hyp(H) "as" simple_intropattern(pat) :=
  let t' := fresh "t" in
  simpl in H; destruct H as (pat & t' & -> & H).

Lemma runs_notebook_inv (t : trace) (out : result namespace) :
  runs notebook t out -> notebook_run t out.
Proof.
  intros H. unfold notebook, cell_search, cell_asset_href in H.
  run_step H as catalog. run_step H as search. run_step H as its. run_step H as [].
  destruct (first_map_href its) as [fp | e] eqn:Hfp; simpl in H.
  2:{ run_end H. by apply run_no_asset. }
  destruct (unsigned_part fp) as [shown | e] eqn:Hshown; simpl in H.
  2:{ destruct (unsigned_part_ok fp) as [? ?]; congruence. }
  run_step H as []. unfold cell_render_raw, with_rasterio_open, from_bounds_star in H.
  run_step H as src. run_step H as tr. run_step H as w. run_step H as X.
  run_step H as []. run_step H as [fig ax]. run_step H as []. run_step H as [].
  unfold cell_render_colormap, with_rasterio_open in H.
  run_step H as src'. run_step H as table.
  destruct (normalize_colormap table) as [cm | e] eqn:Hcm; simpl in H.
  - run_step H as []. run_step H as [fig' ax']. run_step H as []. run_step H as [].
    run_end H.
    by apply (run_complete catalog search its fp shown src tr w X fig ax src' table cm fig' ax').
  - run_step H as []. run_end H.
    by apply (run_bad_table catalog search its fp shown src tr w X fig ax src' table e).
Qed.

Lemma notebook_run_runs (t : trace) (out : result namespace) :
  notebook_run t out -> runs notebook t out.
Proof.
  intros [catalog search its e Hfp
         | catalog search its fp shown src tr w X fig ax src' table e Hfp Hshown Hcm
         | catalog search its fp shown src tr w X fig ax src' table cm fig' ax' Hfp Hshown Hcm];
    unfold notebook, cell_search, cell_asset_href, cell_render_raw, cell_render_colormap,
      with_rasterio_open, from_bounds_star; simpl;
    do 4 (eexists; eexists; split; [reflexivity |]); rewrite Hfp; simpl.
  - split; reflexivity.
  - rewrite Hshown; simpl.
    do 11 (eexists; eexists; split; [reflexivity |]). rewrite Hcm; simpl.
    eexists; eexists; split; [reflexivity |]. split; reflexivity.
  - rewrite Hshown; simpl.
    do 11 (eexists; eexists; split; [reflexivity |]). rewrite Hcm; simpl.
    do 4 (eexists; eexists; split; [reflexivity |]). split; reflexivity.
Qed.

(** ** The asset URL *)

Lemma str_split_head (s : string) :
  exists pieces, str_split "?" s = strip_query s :: pieces.
Proof.
  induction s as [| ch rest [pieces IH]]; simpl; [eauto |].
  destruct (Ascii.eqb ch "?"); [eauto |]. rewrite IH. eauto.
Qed.

Lemma unsigned_part_strip (fp : string) : unsigned_part fp = Ok (strip_query fp).
Proof.
  unfold unsigned_part. destruct (str_split_head fp) as [pieces ->]. reflexivity.
Qed.

(** A URL made of a base without ['?'], a ['?'] and a query strips to its base. *)
Lemma strip_query_signed (base query : string) :
  ~ In "?"%char (String.list_ascii_of_string base) ->
  strip_query (base +:+ String "?" query) = base.
Proof.
  induction base as [| ch rest IH]; simpl; intros Hfree; [reflexivity |].
  destruct (Ascii.eqb_spec ch "?") as [-> | _]; [tauto |].
  f_equal. apply IH. tauto.
Qed.

(** A URL without ['?'] is left as it is. *)
Lemma strip_query_unsigned (url : string) :
  ~ In "?"%char (String.list_ascii_of_string url) -> strip_query url = url.
Proof.
  induction url as [| ch rest IH]; simpl; intros Hfree; [reflexivity |].
  destruct (Ascii.eqb_spec ch "?") as [-> | _]; [tauto |].
  f_equal. apply IH. tauto.
Qed.

Lemma first_map_href_cons (it : Item) (rest : list Item) :
  first_map_href (it :: rest) =
  match assets it !! "map"%string with
  | Some asset => Ok (href asset)
  | None => Raise (KeyError (KStr "map"))
  end.
Proof.
  unfold first_map_href, list_getitem, dict_getitem_str; simpl.
  destruct (assets it !! "map"%string); reflexivity.
Qed.

(** C1, as the specification states it, fails: on an empty search result
    the expression [items[0].assets["map"].href] raises the very
    [IndexError] the claim rules out, and so does the whole notebook when
    the catalog answers with no item. *)
Lemma C1_empty_result_raises_IndexError :
  first_map_href [] = Raise IndexError /\
  items_answers (fst (exec (replay empty_answers) 0 notebook)) = [[]] /\
  snd (exec (replay empty_answers) 0 notebook) = Raise IndexError /\
  ~ (forall its : list Item, its = [] -> first_map_href its <> Raise IndexError).
Proof.
  repeat split; try reflexivity.
  intros Hclaim. exact (Hclaim [] eq_refl eq_refl).
Qed.

(** C1 (amended): a run whose search result is empty ends with Python's
    [IndexError], raised by [items[0]] with no emptiness test before it and
    before any raster is opened; a run whose first item has no "map" asset
    ends with [KeyError("map")].  The two cases are told apart by the
    exception class only. *)
Theorem C1_empty_result_and_missing_asset (t : trace) (out : result namespace) :
  runs notebook t out ->
  (items_answers t = [[]] -> out = Raise IndexError /\ opens t = []) /\
  (forall (it : Item) (rest : list Item),
     items_answers t = [it :: rest] -> assets it !! "map"%string = None ->
     out = Raise (KeyError (KStr "map")) /\ opens t = []) /\
  Raise (A := namespace) IndexError <> Raise (KeyError (KStr "map")).
Proof.
  intros Hrun. apply runs_notebook_inv in Hrun.
  assert (Hcases : forall its e, items_answers t = [its] -> first_map_href its = Raise e ->
                                 out = Raise e /\ opens t = []).
  { intros its0 e0 Hits He0.
    destruct Hrun as [catalog search its e Hfp
         | catalog search its fp shown src tr w X fig ax src' table e Hfp Hshown Hcm
         | catalog search its fp shown src tr w X fig ax src' table cm fig' ax' Hfp Hshown Hcm];
      injection Hits as <-; try congruence.
    split; [congruence | reflexivity]. }
  split; [| split].
  - intros Hits. apply (Hcases [] IndexError Hits). reflexivity.
  - intros it rest Hits Hmap. apply (Hcases (it :: rest) _ Hits).
    rewrite first_map_href_cons, Hmap. reflexivity.
  - discriminate.
Qed.

Lemma C1_empty_result_and_missing_asset_witness :
  runs notebook (fst (exec (replay empty_answers) 0 notebook))
                (snd (exec (replay empty_answers) 0 notebook)) /\
  snd (exec (replay empty_answers) 0 notebook) = Raise IndexError.
Proof.
  split; [apply exec_runs |].
  apply (C1_empty_result_and_missing_asset
           (fst (exec (replay empty_answers) 0 notebook))
           (snd (exec (replay empty_answers) 0 notebook))
           (exec_runs notebook (replay empty_answers) 0)).
  reflexivity.
Defined.

(** C4: when the search result starts with an item that has a "map" asset,
    the asset URL the notebook derives is that asset's [href], unchanged:
    it is the path of both raster opens and the final value of
    [asset_href].  The line printed for comparison is that [href] with
    everything from the first ['?'] onward removed. *)
Theorem C4_asset_href_is_first_map_entry
    (t : trace) (out : result namespace) (it : Item) (rest : list Item) (asset : Asset) :
  runs notebook t out ->
  items_answers t = [it :: rest] ->
  assets it !! "map"%string = Some asset ->
  first_map_href (it :: rest) = Ok (href asset) /\
  Forall (fun o => fst o = href asset) (opens t) /\
  printed t = ["Returned " +:+ pretty (length (it :: rest)) +:+ " Items";
               strip_query (href asset)] /\
  (forall ns : namespace, out = Ok ns ->
     asset_href ns = href asset /\
     strip_query (asset_href ns) = strip_query (href asset)) /\
  (forall base query : string,
     href asset = base +:+ String "?" query ->
     ~ In "?"%char (String.list_ascii_of_string base) ->
     strip_query (href asset) = base).
Proof.
  intros Hrun Hits Hmap.
  assert (Hstrip : forall base query : string,
             href asset = base +:+ String "?" query ->
             ~ In "?"%char (String.list_ascii_of_string base) ->
             strip_query (href asset) = base).
  { intros base query -> Hfree. apply strip_query_signed, Hfree. }
  assert (Hhref : first_map_href (it :: rest) = Ok (href asset)).
  { rewrite first_map_href_cons, Hmap. reflexivity. }
  split; [exact Hhref |].
  apply runs_notebook_inv in Hrun.
  destruct Hrun as [catalog search its e Hfp
       | catalog search its fp shown src tr w X fig ax src' table e Hfp Hshown Hcm
       | catalog search its fp shown src tr w X fig ax src' table cm fig' ax' Hfp Hshown Hcm];
    injection Hits as ->; rewrite Hhref in Hfp; try discriminate;
    injection Hfp as <-; rewrite unsigned_part_strip in Hshown; injection Hshown as <-.
  - split; [| split; [| split]].
    + repeat constructor.
    + reflexivity.
    + discriminate.
    + exact Hstrip.
  - split; [| split; [| split]].
    + repeat constructor.
    + reflexivity.
    + intros ns [= <-]. split; reflexivity.
    + exact Hstrip.
Qed.

Lemma C4_asset_href_is_first_map_entry_witness :
  printed demo_trace =
    ["Returned 1 Items"%string;
     "https://ai4edataeuwest.blob.core.windows.net/esa-worldcover/v100/2020/map/ESA_WorldCover_10m_2020_v100_N00E033_Map.tif"%string] /\
  Forall (fun o => fst o = demo_href) (opens demo_trace).
Proof.
  destruct (C4_asset_href_is_first_map_entry demo_trace demo_outcome demo_item []
              {| href := demo_href |} demo_runs eq_refl eq_refl)
    as (_ & Hopens & Hprinted & _ & _).
  split; [exact Hprinted | exact Hopens].
Defined.

(** ** Normalising the colour table *)

Lemma range_length (n : Z) : length (range n) = Z.to_nat n.
Proof. unfold range. rewrite length_map, length_seq. reflexivity. Qed.

Lemma range_lookup (n : Z) (i : nat) :
  (i < Z.to_nat n)%nat -> range n !! i = Some (Z.of_nat i).
Proof.
  intros Hi. unfold range. rewrite list_lookup_fmap.
  rewrite lookup_seq_lt by exact Hi. reflexivity.
Qed.

Lemma range_elem (n v : Z) : 0 <= v < n -> In v (range n).
Proof.
  intros Hv. unfold range. apply in_map_iff. exists (Z.to_nat v).
  split; [lia |]. apply in_seq. lia.
Qed.

Lemma range_bounds (n v : Z) : In v (range n) -> 0 <= v < n.
Proof.
  unfold range. rewrite in_map_iff. intros (k & <- & Hk). apply in_seq in Hk. lia.
Qed.

Lemma comprehension_length {A B} (f : A -> result B) (xs : list A) (ys : list B) :
  comprehension f xs = Ok ys -> length ys = length xs.
Proof.
  revert ys. induction xs as [| x xs IH]; simpl; intros ys H.
  - injection H as <-. reflexivity.
  - destruct (f x) as [y | e]; [| discriminate].
    destruct (comprehension f xs) as [ys' | e]; [| discriminate].
    injection H as <-. simpl. f_equal. apply IH. reflexivity.
Qed.

Lemma comprehension_lookup {A B} (f : A -> result B) (xs : list A) (ys : list B) :
  comprehension f xs = Ok ys ->
  forall (i : nat) (x : A), xs !! i = Some x ->
    exists y, f x = Ok y /\ ys !! i = Some y.
Proof.
  revert ys. induction xs as [| x0 xs IH]; simpl; intros ys H i x Hi.
  - destruct i; discriminate.
  - destruct (f x0) as [y0 | e] eqn:Hy0; [| discriminate].
    destruct (comprehension f xs) as [ys' | e]; [| discriminate].
    injection H as <-. destruct i as [| i]; simpl in Hi.
    + injection Hi as <-. exists y0. split; [exact Hy0 | reflexivity].
    + apply (IH ys' eq_refl i x Hi).
Qed.

Lemma comprehension_total {A B} (f : A -> result B) (xs : list A) :
  (forall x, In x xs -> exists y, f x = Ok y) ->
  exists ys, comprehension f xs = Ok ys.
Proof.
  induction xs as [| x xs IH]; simpl; intros Hf; [eauto |].
  destruct (Hf x (or_introl eq_refl)) as [y ->].
  destruct IH as [ys ->]; [intros x' Hx'; apply Hf; right; exact Hx' |].
  eauto.
Qed.

(** The length of the normalised table is the length of the raw table,
    whatever its keys. *)
Lemma normalize_colormap_length (table : gmap Z (list Z)) (cm : list (list float)) :
  normalize_colormap table = Ok cm -> Z.of_nat (length cm) = len_dict table.
Proof.
  intros H. apply comprehension_length in H. rewrite H, range_length.
  unfold len_dict. lia.
Qed.

Lemma np_divide_255 (tup : list Z) : np_divide tup 255 = map unit_scale tup.
Proof. reflexivity. Qed.

Lemma bytes_scaled_in_unit : forallb byte_scaled_in_unit (range 256) = true.
Proof. vm_compute. reflexivity. Qed.

Lemma bytes_order_kept :
  forallb (fun u => forallb (byte_order_kept u) (range 256)) (range 256) = true.
Proof. vm_compute. reflexivity. Qed.

Lemma unit_scale_bounds (v : Z) :
  0 <= v <= 255 ->
  PrimFloat.leb 0 (unit_scale v) = true /\ PrimFloat.leb (unit_scale v) 1 = true.
Proof.
  intros Hv. pose proof bytes_scaled_in_unit as H.
  rewrite forallb_forall in H. specialize (H v (range_elem 256 v ltac:(lia))).
  unfold byte_scaled_in_unit in H. apply andb_true_iff in H. exact H.
Qed.

Lemma unit_scale_order (u v : Z) :
  0 <= u <= 255 -> 0 <= v <= 255 ->
  PrimFloat.ltb (unit_scale u) (unit_scale v) = (u <? v) /\
  PrimFloat.eqb (unit_scale u) (unit_scale v) = (u =? v).
Proof.
  intros Hu Hv. pose proof bytes_order_kept as H.
  rewrite forallb_forall in H. specialize (H u (range_elem 256 u ltac:(lia))).
  rewrite forallb_forall in H. specialize (H v (range_elem 256 v ltac:(lia))).
  unfold byte_order_kept in H. apply andb_true_iff in H. destruct H as [H1 H2].
  apply eqb_prop in H1, H2. split; assumption.
Qed.

(** C3: a colour table with entries for the labels [0 .. N-1], all
    components within [0, 255], normalises without error to exactly [N]
    tuples; entry [i] of the result is entry [i] of the table with every
    component divided by 255, so it has as many components, each within
    [0.0, 1.0], and two components compare after scaling as they did
    before.  The tuple (255, 0, 0) becomes (1.0, 0.0, 0.0). *)
Theorem C3_normalize_colormap (table : gmap Z (list Z)) :
  (forall i : Z, 0 <= i < len_dict table -> is_Some (table !! i)) ->
  (forall (i : Z) (tup : list Z), table !! i = Some tup ->
     Forall (fun v => 0 <= v <= 255) tup) ->
  exists cm : list (list float),
    normalize_colormap table = Ok cm /\
    Z.of_nat (length cm) = len_dict table /\
    (forall (i : Z) (tup : list Z), 0 <= i < len_dict table -> table !! i = Some tup ->
       cm !! Z.to_nat i = Some (np_divide tup 255) /\
       length (np_divide tup 255) = length tup /\
       Forall (fun x => PrimFloat.leb 0 x = true /\ PrimFloat.leb x 1 = true)
              (np_divide tup 255)) /\
    (forall (i i' : Z) (tup tup' : list Z) (j k : nat) (u v : Z),
       table !! i = Some tup -> table !! i' = Some tup' ->
       tup !! j = Some u -> tup' !! k = Some v ->
       exists x y : float,
         np_divide tup 255 !! j = Some x /\ np_divide tup' 255 !! k = Some y /\
         PrimFloat.ltb x y = (u <? v) /\ PrimFloat.eqb x y = (u =? v)) /\
    np_divide [255; 0; 0] 255 = [1; 0; 0]%float.
Proof.
  intros Hkeys Hbytes.
  destruct (comprehension_total
              (fun i => rbind (dict_getitem_int table i) (fun t => Ok (np_divide t 255)))
              (range (len_dict table))) as [cm Hcm].
  { intros i Hi. apply range_bounds in Hi. destruct (Hkeys i Hi) as [tup Htup].
    exists (np_divide tup 255). unfold dict_getitem_int. rewrite Htup. reflexivity. }
  exists cm. split; [exact Hcm |]. split; [apply normalize_colormap_length, Hcm |].
  split; [| split].
  - intros i tup Hi Htup. split; [| split].
    + destruct (comprehension_lookup _ _ _ Hcm (Z.to_nat i) i) as (y & Hy & Hlook).
      { rewrite range_lookup by lia. f_equal. lia. }
      unfold dict_getitem_int in Hy. rewrite Htup in Hy. simpl in Hy.
      injection Hy as <-. exact Hlook.
    + unfold np_divide. apply length_map.
    + rewrite np_divide_255. apply List.Forall_map.
      eapply List.Forall_impl; [| exact (Hbytes i tup Htup)].
      intros v Hv. apply unit_scale_bounds, Hv.
  - intros i i' tup tup' j k u v Htup Htup' Hu Hv.
    exists (unit_scale u), (unit_scale v). rewrite !np_divide_255.
    rewrite !list_lookup_fmap, Hu, Hv. split; [reflexivity |]. split; [reflexivity |].
    apply unit_scale_order.
    + pose proof (Hbytes i tup Htup) as Hall. rewrite List.Forall_forall in Hall.
      apply Hall. apply list_elem_of_In. eapply list_elem_of_lookup_2, Hu.
    + pose proof (Hbytes i' tup' Htup') as Hall. rewrite List.Forall_forall in Hall.
      apply Hall. apply list_elem_of_In. eapply list_elem_of_lookup_2, Hv.
  - reflexivity.
Qed.

Lemma demo_table_keys (i : Z) : 0 <= i < len_dict demo_table -> is_Some (demo_table !! i).
Proof.
  change (len_dict demo_table) with 4. intros Hi.
  assert (Hcases : i = 0 \/ i = 1 \/ i = 2 \/ i = 3) by lia.
  destruct Hcases as [-> | [-> | [-> | ->]]]; eexists; reflexivity.
Qed.

Lemma demo_table_bytes (i : Z) (tup : list Z) :
  demo_table !! i = Some tup -> Forall (fun v => 0 <= v <= 255) tup.
Proof.
  revert i tup.
  apply (bool_decide_unpack
           (map_Forall (fun (_ : Z) (tup : list Z) => Forall (fun v => 0 <= v <= 255) tup)
                       demo_table)).
  vm_compute. exact I.
Qed.

Lemma C3_normalize_colormap_witness :
  exists cm : list (list float),
    normalize_colormap demo_table = Ok cm /\ Z.of_nat (length cm) = 4.
Proof.
  destruct (C3_normalize_colormap demo_table demo_table_keys demo_table_bytes)
    as (cm & Hcm & Hlen & _).
  exists cm. split; [exact Hcm | exact Hlen].
Defined.

(** ** What the calls are handed *)

Ltac notebook_cases H :=
  apply runs_notebook_inv in H;
  destruct H as [catalog search its e Hfp
       | catalog search its fp shown src tr w X fig ax src' table e Hfp Hshown Hcm
       | catalog search its fp shown src tr w X fig ax src' table cm fig' ax' Hfp Hshown Hcm].

(** C6: in a completed run the colour-mapped rendering call is given
    [vmin = 0] and [vmax = L - 1], where [L] is the length of the colour
    table read from the file (all of its entries, padding included); the
    colour map given has [L] colours, so the bounds span its index range. *)
Theorem C6_vmin_vmax_span_table (t : trace) (ns : namespace) :
  runs notebook t (Ok ns) ->
  exists (src' : handle) (X : ndarray) (kw : imshow_kwargs) (lc : ListedColormap),
    colormap_reads t = [(src', 1, colormap_def ns)] /\
    imshows t = [(X, no_kwargs); (X, kw)] /\
    kw_vmin kw = Some 0 /\
    kw_vmax kw = Some (len_dict (colormap_def ns) - 1) /\
    kw_cmap kw = Some lc /\
    Z.of_nat (length (colors lc)) = len_dict (colormap_def ns) /\
    kw_interpolation kw = Some "nearest"%string.
Proof.
  intros Hrun. remember (Ok ns) as out eqn:Hout. notebook_cases Hrun; try discriminate.
  injection Hout as <-. simpl.
  exists src', X, (colormap_kwargs table {| colors := cm |}), {| colors := cm |}.
  repeat split. simpl. apply normalize_colormap_length, Hcm.
Qed.

Lemma demo_outcome_ok : exists ns : namespace, demo_outcome = Ok ns.
Proof. eexists. reflexivity. Defined.

Lemma C6_vmin_vmax_span_table_witness :
  exists kw : imshow_kwargs,
    map snd (imshows demo_trace) = [no_kwargs; kw] /\
    kw_vmin kw = Some 0 /\ kw_vmax kw = Some 3.
Proof.
  destruct demo_outcome_ok as [ns Hns].
  destruct (C6_vmin_vmax_span_table demo_trace ns) as (src' & X & kw & lc & Hc & Him & Hmin & Hmax & _).
  - rewrite <- Hns. exact demo_runs.
  - exists kw. rewrite Him. split; [reflexivity |]. split; [exact Hmin |].
    rewrite Hmax. f_equal.
    assert (Htable : colormap_def ns = demo_table).
    { assert (H : Ok ns = demo_outcome) by (symmetry; exact Hns).
      injection H as ->. reflexivity. }
    rewrite Htable. reflexivity.
Defined.

(** C7: the band is read at most once in any run and exactly once in a
    completed one; every rendering call is handed the array that read
    answered.  In a completed run the trace is: a prefix holding the read,
    the first rendering call, a middle part (the second open, the colour
    table, the close and the figure set-up) in which no call reads the band
    or is handed an array, and the second rendering call, on the same
    array, which is also the final value of [raster_data]. *)
Theorem C7_raster_data_read_once (t : trace) (out : result namespace) :
  runs notebook t out ->
  (length (reads t) <= 1)%nat /\
  (forall (X : ndarray) (kw : imshow_kwargs), In (X, kw) (imshows t) ->
     exists (src : handle) (w : Window.t), reads t = [(src, 1, w, X)]) /\
  (forall ns : namespace, out = Ok ns ->
     exists (pre mid : trace) (ax ax' src : handle) (w : Window.t) (kw : imshow_kwargs),
       t = pre ++ [Ev (Imshow ax (raster_data ns) no_kwargs) tt] ++ mid
               ++ [Ev (Imshow ax' (raster_data ns) kw) tt] /\
       reads pre = [(src, 1, w, raster_data ns)] /\
       imshows pre = [] /\
       reads mid = [] /\
       Forall (fun ev => array_args (call_of ev) = []) mid).
Proof.
  intros Hrun. notebook_cases Hrun; simpl.
  - split; [lia |]. split; [intros X kw [] | discriminate].
  - split; [lia |]. split; [| discriminate].
    intros X0 kw [[= <- <-] | []]. eauto.
  - split; [lia |]. split.
    + intros X0 kw [[= <- <-] | [[= <- <-] | []]]; eauto.
    + intros ns [= <-]. simpl.
      exists (search_events catalog search its ++ [Ev (Print shown) tt]
              ++ [Ev (RasterioOpen fp) src; Ev (GetTransform src) tr;
                  Ev (FromBounds 33.984 0.788 34.902 1.533 tr) w;
                  Ev (Read src 1 w) X; Ev (Close src) tt;
                  Ev (Subplots (12, 12)) (fig, ax); Ev (SetAxisOff ax) tt]),
             (table_events fp src' table
              ++ [Ev (Subplots (12, 12)) (fig', ax'); Ev (SetAxisOff ax') tt]),
             ax, ax', src, w, (colormap_kwargs table {| colors := cm |}).
      split; [reflexivity |]. split; [reflexivity |]. split; [reflexivity |].
      split; [reflexivity |]. repeat constructor.
Qed.

Lemma C7_raster_data_read_once_witness :
  map (fun r => snd r) (reads demo_trace) = [demo_data] /\
  map fst (imshows demo_trace) = [demo_data; demo_data].
Proof.
  pose proof (C7_raster_data_read_once demo_trace demo_outcome demo_runs) as (_ & Hshown & _).
  destruct (Hshown demo_data no_kwargs) as (src & w & Hreads).
  - left. reflexivity.
  - rewrite Hreads. split; reflexivity.
Defined.

(** C8: the bounding box is the list [33.984, 0.788, 34.902, 1.533], bound
    once.  In every run each catalog search is handed that list and each
    window computation is handed its four elements as left, bottom, right
    and top; a completed run has one call of each kind. *)
Theorem C8_bbox_of_interest_shared (t : trace) (out : result namespace) :
  runs notebook t out ->
  bbox_of_interest = [33.984; 0.788; 34.902; 1.533]%float /\
  Forall (fun bbox => bbox = bbox_of_interest) (search_bboxes t) /\
  Forall (fun c => fst c = bbox_of_interest) (from_bounds_calls t) /\
  length (search_bboxes t) = 1%nat /\
  (is_ok out = true -> length (from_bounds_calls t) = 1%nat).
Proof.
  intros Hrun. split; [reflexivity |].
  notebook_cases Hrun; simpl; repeat split; repeat constructor; discriminate.
Qed.

Lemma C8_bbox_of_interest_shared_witness :
  search_bboxes demo_trace = [bbox_of_interest] /\
  map fst (from_bounds_calls demo_trace) = [bbox_of_interest] /\
  Forall (fun bbox => bbox = bbox_of_interest) (search_bboxes demo_trace).
Proof.
  split; [reflexivity |]. split; [reflexivity |].
  apply (C8_bbox_of_interest_shared demo_trace demo_outcome demo_runs).
Defined.

(** C10: every band read and every colour-table read of a run asks for band
    1.  Whenever a rendering call of a run is handed a colour map, the
    array it shows is the answer of a read of band 1 and the colour map is
    the normalisation of a table answered by a colour-table read of band 1
    of that run.  In a completed run there is one read of each kind, made
    on two datasets opened from the same path, the derived asset URL; the
    second rendering call shows the array read and is handed the colour map
    built from the table read. *)
Theorem C10_same_band (t : trace) (out : result namespace) :
  runs notebook t out ->
  Forall (fun r => snd (fst (fst r)) = 1) (reads t) /\
  Forall (fun r => snd (fst r) = 1) (colormap_reads t) /\
  (forall (X : ndarray) (kw : imshow_kwargs) (lc : ListedColormap),
     In (X, kw) (imshows t) -> kw_cmap kw = Some lc ->
     exists (src src' : handle) (w : Window.t) (table : gmap Z (list Z)),
       In (src, 1, w, X) (reads t) /\
       In (src', 1, table) (colormap_reads t) /\
       normalize_colormap table = Ok (colors lc)) /\
  (forall ns : namespace, out = Ok ns ->
     exists (src src' : handle) (w : Window.t),
       opens t = [(asset_href ns, src); (asset_href ns, src')] /\
       reads t = [(src, 1, w, raster_data ns)] /\
       colormap_reads t = [(src', 1, colormap_def ns)] /\
       normalize_colormap (colormap_def ns) = Ok (colormap ns) /\
       cmap ns = {| colors := colormap ns |} /\
       exists kw : imshow_kwargs,
         imshows t = [(raster_data ns, no_kwargs); (raster_data ns, kw)] /\
         kw_cmap kw = Some (cmap ns)).
Proof.
  intros Hrun. notebook_cases Hrun; simpl.
  - split; [constructor |]. split; [constructor |]. split; [intros X kw lc [] | discriminate].
  - split; [repeat constructor |]. split; [repeat constructor |]. split; [| discriminate].
    intros X0 kw lc [[= <- <-] | []] Hlc. discriminate Hlc.
  - split; [repeat constructor |]. split; [repeat constructor |]. split.
    + intros X0 kw lc [[= <- <-] | [[= <- <-] | []]] Hlc; [discriminate Hlc |].
      injection Hlc as <-. exists src, src', w, table. simpl. auto.
    + intros ns [= <-]. simpl. exists src, src', w.
      split; [reflexivity |]. split; [reflexivity |]. split; [reflexivity |].
      split; [exact Hcm |]. split; [reflexivity |].
      exists (colormap_kwargs table {| colors := cm |}). split; reflexivity.
Qed.

Lemma C10_same_band_witness :
  map (fun r => snd (fst (fst r))) (reads demo_trace) = [1] /\
  map (fun r => snd (fst r)) (colormap_reads demo_trace) = [1] /\
  Forall (fun r => snd (fst (fst r)) = 1) (reads demo_trace) /\
  exists (lc : ListedColormap) (table : gmap Z (list Z)),
    map (fun im => kw_cmap (snd im)) (imshows demo_trace) = [None; Some lc] /\
    map snd (colormap_reads demo_trace) = [table] /\
    normalize_colormap table = Ok (colors lc).
Proof.
  split; [reflexivity |]. split; [reflexivity |].
  destruct (C10_same_band demo_trace demo_outcome demo_runs) as (Hband & _ & _ & Hdone).
  split; [exact Hband |].
  destruct demo_outcome_ok as [ns Hns].
  destruct (Hdone ns Hns)
    as (src & src' & w & _ & _ & Htable & Hnorm & Hcmap & kw & Him & Hkw).
  exists (cmap ns), (colormap_def ns). split; [| split].
  - rewrite Him. simpl. rewrite Hkw. reflexivity.
  - rewrite Htable. reflexivity.
  - rewrite Hcmap. simpl. exact Hnorm.
Defined.

(** ** Determinism *)

(** A program's calls and outcome are a function of the answers it receives. *)
Lemma runs_deterministic {A} (p : prog A) (t1 t2 : trace) (out1 out2 : result A) :
  runs p t1 out1 -> runs p t2 out2 -> responses t1 = responses t2 ->
  t1 = t2 /\ out1 = out2.
Proof.
  intros H1 H2 Hresp. apply runs_exec in H1, H2. rewrite Hresp in H1.
  rewrite H1 in H2. injection H2 as -> ->. split; reflexivity.
Qed.

(** C9: take two runs in which the catalog answers the same items, the
    datasets answer the same transform and the same colour table, the
    window computation is one function [window_of] of bounds and transform,
    and the band content is one function [content] of band and window.
    Whatever handles the libraries hand out, both runs end with the same
    outcome (the same variables when they complete, the same exception
    otherwise), and they print the same lines, open the same paths, compute
    the same window, read the same array and hand the same arguments to
    both rendering calls. *)
Theorem C9_notebook_deterministic
    (window_of : list float -> Affine.t -> Window.t)
    (content : Z -> Window.t -> ndarray)
    (t1 t2 : trace) (out1 out2 : result namespace) :
  runs notebook t1 out1 ->
  runs notebook t2 out2 ->
  items_answers t1 = items_answers t2 ->
  map snd (transforms t1) = map snd (transforms t2) ->
  Forall (fun c => snd c = window_of (fst (fst c)) (snd (fst c))) (windows t1) ->
  Forall (fun c => snd c = window_of (fst (fst c)) (snd (fst c))) (windows t2) ->
  Forall (fun r => snd r = content (snd (fst (fst r))) (snd (fst r))) (reads t1) ->
  Forall (fun r => snd r = content (snd (fst (fst r))) (snd (fst r))) (reads t2) ->
  map snd (colormap_reads t1) = map snd (colormap_reads t2) ->
  out1 = out2 /\
  printed t1 = printed t2 /\
  map fst (opens t1) = map fst (opens t2) /\
  windows t1 = windows t2 /\
  map snd (reads t1) = map snd (reads t2) /\
  imshows t1 = imshows t2.
Proof.
  intros H1 H2 Hits Htr Hw1 Hw2 Hr1 Hr2 Htab.
  notebook_cases H1;
    apply runs_notebook_inv in H2;
    destruct H2 as [catalog2 search2 its2 e2 Hfp2
       | catalog2 search2 its2 fp2 shown2 src2 tr2 w2 X2 fig2 ax2 src2' table2 e2
           Hfp2 Hshown2 Hcm2
       | catalog2 search2 its2 fp2 shown2 src2 tr2 w2 X2 fig2 ax2 src2' table2 cm2 fig2' ax2'
           Hfp2 Hshown2 Hcm2];
    simpl in Hits; injection Hits as <-;
    try (rewrite Hfp in Hfp2; discriminate);
    try (rewrite Hfp in Hfp2; injection Hfp2 as <-).
  - repeat split.
  - rewrite Hshown in Hshown2; injection Hshown2 as <-.
    simpl in Htr, Hw1, Hw2, Hr1, Hr2, Htab.
    injection Htr as <-. injection Htab as <-.
    apply Forall_inv in Hw1, Hw2, Hr1, Hr2. simpl in Hw1, Hw2, Hr1, Hr2.
    rewrite <- Hw1 in Hw2. subst w2. rewrite <- Hr1 in Hr2. subst X2.
    rewrite Hcm in Hcm2. injection Hcm2 as <-. repeat split.
  - rewrite Hshown in Hshown2; injection Hshown2 as <-.
    simpl in Htab. injection Htab as <-. rewrite Hcm in Hcm2. discriminate.
  - rewrite Hshown in Hshown2; injection Hshown2 as <-.
    simpl in Htab. injection Htab as <-. rewrite Hcm in Hcm2. discriminate.
  - rewrite Hshown in Hshown2; injection Hshown2 as <-.
    simpl in Htr, Hw1, Hw2, Hr1, Hr2, Htab.
    injection Htr as <-. injection Htab as <-.
    apply Forall_inv in Hw1, Hw2, Hr1, Hr2. simpl in Hw1, Hw2, Hr1, Hr2.
    rewrite <- Hw1 in Hw2. subst w2. rewrite <- Hr1 in Hr2. subst X2.
    rewrite Hcm in Hcm2. injection Hcm2 as <-. repeat split.
Qed.

Lemma C9_notebook_deterministic_witness :
  demo_trace <> other_trace /\ demo_outcome = other_outcome /\
  imshows demo_trace = imshows other_trace.
Proof.
  split.
  { intros Heq. apply (f_equal (fun t => map snd (opens t))) in Heq. discriminate Heq. }
  assert (Hwin : forall t, windows t = windows demo_trace ->
            Forall (fun c => snd c = demo_window) (windows t)).
  { intros t ->. repeat constructor. }
  assert (Hread : forall t, map snd (reads t) = [demo_data] ->
            Forall (fun r => snd r = demo_data) (reads t)).
  { intros t Ht. apply List.Forall_forall. intros r Hr.
    apply (in_map snd) in Hr. rewrite Ht in Hr. destruct Hr as [<- | []]. reflexivity. }
  destruct (C9_notebook_deterministic (fun _ _ => demo_window) (fun _ _ => demo_data)
              demo_trace other_trace demo_outcome other_outcome
              demo_runs (exec_runs notebook (replay (session_answers 10%nat)) 0)
              eq_refl eq_refl
              (Hwin demo_trace eq_refl) (Hwin other_trace eq_refl)
              (Hread demo_trace eq_refl) (Hread other_trace eq_refl) eq_refl)
    as (Hout & _ & _ & _ & _ & Him).
  split; [exact Hout | exact Him].
Defined.

(** ** Rendering with the listed colour map *)

Lemma nearest_source_lt (n_src n_out i : nat) :
  (0 < n_src)%nat -> (i < n_out)%nat -> (nearest_source n_src n_out i < n_src)%nat.
Proof.
  intros Hsrc Hi. unfold nearest_source.
  apply Nat.Div0.div_lt_upper_bound. nia.
Qed.

(** Every display pixel shows some pixel of the source array. *)
Lemma sample_nearest_some (X : ndarray) (rows cols r c : nat) :
  X <> [] -> Forall (fun row => row <> []) X -> (r < rows)%nat -> (c < cols)%nat ->
  exists (row : list Z) (v : Z),
    In row X /\ In v row /\ sample_nearest X rows cols r c = Some v.
Proof.
  intros HX Hrows Hr Hc. unfold sample_nearest.
  assert (HlenX : (0 < length X)%nat) by (destruct X; [congruence | simpl; lia]).
  destruct (lookup_lt_is_Some_2 X (nearest_source (length X) rows r)) as [row Hrow].
  { apply nearest_source_lt; assumption. }
  rewrite Hrow.
  assert (Hin : In row X) by (apply list_elem_of_In; eapply list_elem_of_lookup_2, Hrow).
  rewrite List.Forall_forall in Hrows. specialize (Hrows row Hin).
  assert (Hlen : (0 < length row)%nat) by (destruct row; [congruence | simpl; lia]).
  destruct (lookup_lt_is_Some_2 row (nearest_source (length row) cols c)) as [v Hv].
  { apply nearest_source_lt; assumption. }
  exists row, v. split; [exact Hin |]. split; [| exact Hv].
  apply list_elem_of_In. eapply list_elem_of_lookup_2, Hv.
Qed.

(** Whatever the label and the bounds, the index selected is an index of
    the colour map. *)
Lemma cmap_index_range (N vmin vmax v : Z) :
  0 < N -> 0 <= cmap_index N vmin vmax v < N.
Proof. unfold cmap_index. lia. Qed.

(** With the bounds [0] and [L - 1] on a map of [L] colours, a label within
    the bounds selects the entry of its own number. *)
Lemma cmap_index_label (L v : Z) : 0 <= v < L -> cmap_index L 0 (L - 1) v = v.
Proof.
  intros Hv. unfold cmap_index. rewrite !Z.sub_0_r.
  destruct (Z.eq_dec v (L - 1)) as [-> | Hne].
  - destruct (Z.eq_dec L 1) as [-> | HL]; [reflexivity |].
    rewrite (Z.mul_comm (L - 1) L), Z.div_mul by lia. lia.
  - assert (Hdiv : v * L / (L - 1) = v).
    { symmetry. apply (Z.div_unique_pos (v * L) (L - 1) v v); lia. }
    rewrite Hdiv. lia.
Qed.

(** C2: for every array with at least one pixel, every colour table that
    normalises to a non-empty colour map and every display size, the colour
    displayed at a pixel by the colour-mapped call (nearest-neighbour
    interpolation, bounds [0] and [L - 1]) is the colour of one source
    pixel's label and is an entry of the colour map; when that label is
    within the table it is the table's entry for the label, scaled, and an
    entry whose red, green and blue are 0, as the padding entries are, is
    displayed black. *)
Theorem C2_nearest_listed_rendering
    (table : gmap Z (list Z)) (cm : list (list float)) (X : ndarray)
    (rows cols r c : nat) :
  normalize_colormap table = Ok cm ->
  0 < len_dict table ->
  X <> [] -> Forall (fun row => row <> []) X ->
  (r < rows)%nat -> (c < cols)%nat ->
  exists (v : Z) (col : list float),
    sample_nearest X rows cols r c = Some v /\
    (exists row : list Z, In row X /\ In v row) /\
    displayed X (colormap_kwargs table {| colors := cm |}) rows cols r c = Some col /\
    In col cm /\
    (0 <= v < len_dict table ->
       cm !! Z.to_nat v = Some col /\
       forall tup : list Z, table !! v = Some tup ->
         col = np_divide tup 255 /\
         (forall alpha : list Z, tup = 0 :: 0 :: 0 :: alpha ->
            exists falpha : list float, col = (0 :: 0 :: 0 :: falpha)%float)).
Proof.
  intros Hcm HL HX Hrows Hr Hc.
  destruct (sample_nearest_some X rows cols r c HX Hrows Hr Hc) as (row & v & Hrow & Hv & Hsample).
  pose proof (normalize_colormap_length table cm Hcm) as Hlen.
  set (idx := cmap_index (Z.of_nat (length cm)) 0 (len_dict table - 1) v).
  assert (Hidx : 0 <= idx < Z.of_nat (length cm)) by (apply cmap_index_range; lia).
  destruct (lookup_lt_is_Some_2 cm (Z.to_nat idx)) as [col Hcol]; [lia |].
  exists v, col. split; [exact Hsample |]. split; [eauto |].
  assert (Hshown : displayed X (colormap_kwargs table {| colors := cm |}) rows cols r c
                   = Some col).
  { unfold displayed. simpl. rewrite Hsample. exact Hcol. }
  split; [exact Hshown |]. split.
  { apply list_elem_of_In. eapply list_elem_of_lookup_2, Hcol. }
  intros Hvin.
  assert (Hsame : idx = v).
  { unfold idx. rewrite Hlen. apply cmap_index_label, Hvin. }
  rewrite Hsame in Hcol. split; [exact Hcol |].
  intros tup Htup.
  destruct (comprehension_lookup _ _ _ Hcm (Z.to_nat v) v) as (y & Hy & Hlook).
  { rewrite range_lookup by lia. f_equal. lia. }
  unfold dict_getitem_int in Hy. rewrite Htup in Hy. simpl in Hy. injection Hy as <-.
  rewrite Hlook in Hcol. injection Hcol as <-. split; [reflexivity |].
  intros alpha ->. exists (np_divide alpha 255). reflexivity.
Qed.

Lemma demo_colormap_ok :
  exists cm : list (list float), normalize_colormap demo_table = Ok cm.
Proof. eexists. reflexivity. Defined.

Lemma C2_nearest_listed_rendering_witness :
  exists (cm : list (list float)) (col : list float),
    normalize_colormap demo_table = Ok cm /\
    displayed demo_data (colormap_kwargs demo_table {| colors := cm |}) 7 5 6 4 = Some col /\
    In col cm.
Proof.
  destruct demo_colormap_ok as [cm Hcm].
  destruct (C2_nearest_listed_rendering demo_table cm demo_data 7 5 6 4 Hcm)
    as (v & col & _ & _ & Hshown & Hin & _).
  - reflexivity.
  - discriminate.
  - repeat constructor; discriminate.
  - lia.
  - lia.
  - exists cm, col. split; [exact Hcm |]. split; [exact Hshown | exact Hin].
Defined.

(** * Further properties of the notebook *)

Lemma holed_runs : runs notebook holed_trace holed_outcome.
Proof. apply exec_runs. Qed.

(** ** Dataset lifetime *)

(** [try ... finally close]: the calls of the body, then the close, and the
    outcome of the body. *)
Lemma finally_close_runs {A} (p : prog A) (src : handle) (t : trace) (out : result A) :
  runs (finally p (src_close src)) t out <->
  exists tp : trace, t = tp ++ [Ev (Close src) tt] /\ runs p tp out.
Proof.
  revert t. induction p as [x | e | e k IH]; intros t; simpl.
  - split.
    + intros ([] & t' & -> & -> & ->). exists []. auto.
    + intros (tp & -> & -> & ->). exists tt, []. auto.
  - split.
    + intros ([] & t' & -> & -> & ->). exists []. auto.
    + intros (tp & -> & -> & ->). exists tt, []. auto.
  - split.
    + intros (r & t' & -> & Hrun). apply IH in Hrun. destruct Hrun as (tp & -> & Hrun).
      exists (Ev e r :: tp). split; [reflexivity |]. exists r, tp. auto.
    + intros (tp & -> & r & t' & -> & Hrun). exists r, (t' ++ [Ev (Close src) tt]).
      split; [reflexivity |]. apply IH. exists t'. auto.
Qed.

(** X1: whatever the body of [with rasterio.open(fp) as src] does, a run
    of the block is the open, a run of the body on the dataset opened, and
    the close of that dataset as its last call; the block ends as the body
    ended, by a value or by an exception. *)
Theorem with_rasterio_open_brackets {A} (fp : string) (body : handle -> prog A)
    (t : trace) (out : result A) :
  runs (with_rasterio_open fp body) t out <->
  exists (src : handle) (tb : trace),
    t = Ev (RasterioOpen fp) src :: tb ++ [Ev (Close src) tt] /\
    runs (body src) tb out.
Proof.
  unfold with_rasterio_open. simpl. split.
  - intros (src & t' & -> & Hrun). apply finally_close_runs in Hrun.
    destruct Hrun as (tb & -> & Hrun). exists src, tb. auto.
  - intros (src & tb & -> & Hrun). exists src, (tb ++ [Ev (Close src) tt]).
    split; [reflexivity |]. apply finally_close_runs. exists tb. auto.
Qed.

Lemma with_rasterio_open_brackets_witness :
  runs (with_rasterio_open "a.tif" (fun src => src_colormap src 1))
       [Ev (RasterioOpen "a.tif") 3%nat; Ev (Colormap 3%nat 1) demo_table;
        Ev (Close 3%nat) tt]
       (Ok demo_table).
Proof.
  apply (proj2 (with_rasterio_open_brackets "a.tif" (fun src => src_colormap src 1) _ _)).
  exists 3%nat, [Ev (Colormap 3%nat 1) demo_table]. split; [reflexivity |].
  simpl. exists demo_table, []. split; [reflexivity |]. split; reflexivity.
Defined.

(** X2: in every run of the notebook, however it ends, a dataset is opened
    only while none is open, is queried, read and closed only while it is
    the open one, and is closed before anything is plotted and before the
    run ends: the datasets closed are the datasets opened, in the same
    order. *)
Theorem datasets_closed_in_every_run (t : trace) (out : result namespace) :
  runs notebook t out ->
  lifetime_ok None t = true /\ closes t = map snd (opens t).
Proof.
  intros Hrun. notebook_cases Hrun; simpl; rewrite ?Nat.eqb_refl; split; reflexivity.
Qed.

Lemma datasets_closed_in_every_run_witness :
  lifetime_ok None holed_trace = true /\ closes holed_trace = [3; 6]%nat.
Proof.
  destruct (datasets_closed_in_every_run holed_trace holed_outcome holed_runs) as [Hok Hcl].
  split; [exact Hok | rewrite Hcl; reflexivity].
Defined.

(** ** Data flow into the libraries *)

(** X3: in every run, the band is read on a dataset that was opened in that
    run, through the window that the window computation answered, and that
    window was computed from the transform of the very dataset being read
    and from the bounding box. *)
Theorem read_window_from_own_transform (t : trace) (out : result namespace) :
  runs notebook t out ->
  forall (src : handle) (indexes : Z) (w : Window.t) (X : ndarray),
    In (src, indexes, w, X) (reads t) ->
    exists (fp : string) (tr : Affine.t),
      In (fp, src) (opens t) /\
      transforms t = [(src, tr)] /\
      windows t = [(bbox_of_interest, tr, w)].
Proof.
  intros Hrun src0 indexes w0 X0 Hin. notebook_cases Hrun; simpl in Hin.
  - destruct Hin.
  - destruct Hin as [[= <- <- <- <-] | []]. exists fp, tr. simpl. auto.
  - destruct Hin as [[= <- <- <- <-] | []]. exists fp, tr. simpl. auto.
Qed.

Lemma read_window_from_own_transform_witness :
  transforms demo_trace = [(3%nat, demo_transform)] /\
  windows demo_trace = [(bbox_of_interest, demo_transform, demo_window)].
Proof.
  destruct (read_window_from_own_transform demo_trace demo_outcome demo_runs
              3%nat 1 demo_window demo_data) as (fp & tr & _ & Htr & Hw).
  - left. reflexivity.
  - assert (Heq : tr = demo_transform).
    { assert (H : transforms demo_trace = [(3%nat, demo_transform)]) by reflexivity.
      rewrite H in Htr. injection Htr as <-. reflexivity. }
    rewrite Htr, Hw, Heq. split; reflexivity.
Defined.

(** X4: every run, however it ends, starts with the same three catalog
    calls and makes no other: the client is opened on the Planetary
    Computer STAC endpoint with the signing modifier, the search is made on
    the catalog that open answered and is restricted to the
    "esa-worldcover" collection, and the items are fetched from the search
    that call answered. *)
Theorem catalog_calls_chain (t : trace) (out : result namespace) :
  runs notebook t out ->
  exists (catalog search : handle) (its : list Item) (rest : trace),
    t = search_events catalog search its ++ rest /\
    catalog_opens t =
      [("https://planetarycomputer.microsoft.com/api/stac/v1"%string, sign_inplace, catalog)] /\
    searches t = [(catalog, ["esa-worldcover"%string], search)] /\
    items_requests t = [search] /\
    items_answers t = [its].
Proof.
  intros Hrun. notebook_cases Hrun; exists catalog, search, its; eexists;
    (split; [reflexivity |]); simpl; auto.
Qed.

Lemma catalog_calls_chain_witness :
  searches holed_trace = [(1%nat, ["esa-worldcover"%string], 2%nat)] /\
  items_requests holed_trace = [2%nat].
Proof.
  destruct (catalog_calls_chain holed_trace holed_outcome holed_runs)
    as (catalog & search & its & rest & _ & _ & Hs & Hi & _).
  assert (Hsearch : search = 2%nat).
  { assert (H : items_requests holed_trace = [2%nat]) by reflexivity.
    rewrite H in Hi. injection Hi as <-. reflexivity. }
  assert (Hcatalog : catalog = 1%nat).
  { assert (H : map (fun s => fst (fst s)) (searches holed_trace) = [1%nat]) by reflexivity.
    rewrite Hs in H. injection H as ->. reflexivity. }
  rewrite Hs, Hi, Hsearch, Hcatalog. split; reflexivity.
Defined.

(** ** How the colour table can fail *)

(** A comprehension that raises does so at its first failing element. *)
Lemma comprehension_raise_first {A B} (f : A -> result B) (xs : list A) (e : exn) :
  comprehension f xs = Raise e ->
  exists (pre : list A) (x : A) (post : list A),
    xs = pre ++ x :: post /\ f x = Raise e /\
    Forall (fun y => exists z, f y = Ok z) pre.
Proof.
  induction xs as [| x xs IH]; simpl; intros H; [discriminate |].
  destruct (f x) as [y | e'] eqn:Hfx.
  - destruct (comprehension f xs) as [ys | e'']; [discriminate |].
    injection H as ->. destruct (IH eq_refl) as (pre & x' & post & -> & Hx' & Hpre).
    exists (x :: pre), x', post. split; [reflexivity |]. split; [exact Hx' |].
    constructor; eauto.
  - injection H as ->. exists [], x, xs. split; [reflexivity |]. split; [exact Hfx |].
    constructor.
Qed.

(** Where [range n] is cut, the element at the cut is the length of the
    part before it, and that part holds every smaller number. *)
Lemma range_cut (n k : Z) (pre post : list Z) :
  range n = pre ++ k :: post ->
  0 <= k < n /\ forall j : Z, 0 <= j < k -> In j pre.
Proof.
  intros Hcut.
  assert (Hk : 0 <= k < n).
  { apply range_bounds. rewrite Hcut. apply in_or_app. right. left. reflexivity. }
  assert (Hlen : (length pre < Z.to_nat n)%nat).
  { rewrite <- range_length, Hcut, length_app. simpl. lia. }
  assert (Hat : k = Z.of_nat (length pre)).
  { pose proof (range_lookup n (length pre) Hlen) as Hl.
    rewrite Hcut in Hl. rewrite list_lookup_middle in Hl by reflexivity.
    injection Hl as ->. reflexivity. }
  split; [exact Hk |]. intros j Hj.
  pose proof (range_lookup n (Z.to_nat j) ltac:(lia)) as Hl.
  rewrite Hcut, lookup_app_l in Hl by lia.
  apply list_elem_of_In. apply list_elem_of_lookup_2 in Hl.
  replace (Z.of_nat (Z.to_nat j)) with j in Hl by lia. exact Hl.
Qed.

Lemma normalize_colormap_raise (table : gmap Z (list Z)) (e : exn) :
  normalize_colormap table = Raise e ->
  exists k : Z,
    e = KeyError (KInt k) /\ 0 <= k < len_dict table /\ table !! k = None /\
    forall j : Z, 0 <= j < k -> is_Some (table !! j).
Proof.
  intros H. apply comprehension_raise_first in H.
  destruct H as (pre & k & post & Hcut & Hk & Hpre).
  apply range_cut in Hcut. destruct Hcut as [Hrange Hsmaller].
  unfold dict_getitem_int in Hk.
  destruct (table !! k) as [tup |] eqn:Hlook; simpl in Hk; [discriminate |].
  injection Hk as <-. exists k. split; [reflexivity |]. split; [exact Hrange |].
  split; [exact Hlook |]. intros j Hj.
  rewrite List.Forall_forall in Hpre. destruct (Hpre j (Hsmaller j Hj)) as [z Hz].
  unfold dict_getitem_int in Hz. destruct (table !! j); [eauto | discriminate].
Qed.

Lemma normalize_colormap_ok_keys (table : gmap Z (list Z)) (cm : list (list float)) :
  normalize_colormap table = Ok cm ->
  forall k : Z, 0 <= k < len_dict table -> is_Some (table !! k).
Proof.
  intros Hcm k Hk.
  destruct (comprehension_lookup _ _ _ Hcm (Z.to_nat k) k) as (y & Hy & _).
  { rewrite range_lookup by lia. f_equal. lia. }
  unfold dict_getitem_int in Hy. destruct (table !! k); [eauto | discriminate].
Qed.

(** A dict of [N] entries that has the keys [0 .. N-1] has no other key. *)
Lemma dict_keys_exactly (table : gmap Z (list Z)) :
  (forall k : Z, 0 <= k < len_dict table -> is_Some (table !! k)) ->
  forall k : Z, is_Some (table !! k) -> 0 <= k < len_dict table.
Proof.
  intros Hkeys k Hk.
  set (labels := list_to_set (range (len_dict table)) : gset Z).
  assert (Hsub : labels ⊆ dom table).
  { intros j Hj. apply elem_of_list_to_set, list_elem_of_In, range_bounds in Hj.
    apply elem_of_dom, Hkeys, Hj. }
  assert (Hsize : size labels = size (dom table)).
  { unfold labels. rewrite size_list_to_set.
    - rewrite range_length, size_dom. unfold len_dict. lia.
    - unfold range. apply NoDup_fmap_2; [apply Nat2Z.inj' | apply NoDup_seq]. }
  assert (Heq : labels = dom table).
  { apply set_subseteq_size_eq; [exact Hsub | lia]. }
  apply elem_of_dom in Hk. rewrite <- Heq in Hk.
  apply elem_of_list_to_set, list_elem_of_In, range_bounds in Hk. exact Hk.
Qed.

(** X5: the colour table normalises without an exception exactly when its
    labels are the numbers [0 .. N-1], [N] being the number of its entries;
    the empty table is such a table. *)
Theorem normalize_colormap_succeeds_iff (table : gmap Z (list Z)) :
  (exists cm : list (list float), normalize_colormap table = Ok cm) <->
  (forall k : Z, is_Some (table !! k) <-> 0 <= k < len_dict table).
Proof.
  split.
  - intros [cm Hcm] k. split.
    + apply dict_keys_exactly. apply (normalize_colormap_ok_keys table cm Hcm).
    + apply (normalize_colormap_ok_keys table cm Hcm).
  - intros Hkeys. apply comprehension_total. intros k Hk. apply range_bounds in Hk.
    destruct (proj2 (Hkeys k) Hk) as [tup Htup].
    exists (np_divide tup 255). unfold dict_getitem_int. rewrite Htup. reflexivity.
Qed.

Lemma normalize_colormap_succeeds_iff_witness :
  is_Some (demo_table !! 3) /\ ~ is_Some (demo_table !! 4).
Proof.
  assert (Hkeys : forall k : Z, is_Some (demo_table !! k) <-> 0 <= k < 4).
  { apply (proj1 (normalize_colormap_succeeds_iff demo_table)). eexists. reflexivity. }
  split.
  - apply Hkeys. lia.
  - intros H. apply Hkeys in H. lia.
Defined.

(** X6: the colour table fails to normalise with an exception [e] exactly
    when [e] is the [KeyError] of the smallest label below [N] that the
    table lacks; no other exception is possible. *)
Theorem normalize_colormap_raises_iff (table : gmap Z (list Z)) (e : exn) :
  normalize_colormap table = Raise e <->
  exists k : Z,
    e = KeyError (KInt k) /\ 0 <= k < len_dict table /\ table !! k = None /\
    forall j : Z, 0 <= j < k -> is_Some (table !! j).
Proof.
  split; [apply normalize_colormap_raise |].
  intros (k & -> & Hk & Hnone & Hbelow).
  destruct (normalize_colormap table) as [cm | e'] eqn:Hnorm.
  - destruct (normalize_colormap_ok_keys table cm Hnorm k Hk) as [tup Htup]. congruence.
  - apply normalize_colormap_raise in Hnorm.
    destruct Hnorm as (k' & -> & Hk' & Hnone' & Hbelow').
    assert (Hsame : k' = k).
    { destruct (Z.lt_trichotomy k' k) as [Hlt | [Heq | Hgt]]; [| exact Heq |].
      - destruct (Hbelow k' ltac:(lia)) as [tup Htup]. congruence.
      - destruct (Hbelow' k ltac:(lia)) as [tup Htup]. congruence. }
    rewrite Hsame. reflexivity.
Qed.

Lemma normalize_colormap_raises_iff_witness :
  normalize_colormap holed_table = Raise (KeyError (KInt 2)).
Proof.
  apply (proj2 (normalize_colormap_raises_iff holed_table (KeyError (KInt 2)))).
  exists 2. split; [reflexivity |]. split; [split; [lia | reflexivity] |].
  split; [reflexivity |]. intros j Hj.
  assert (Hcases : j = 0 \/ j = 1) by lia.
  destruct Hcases as [-> | ->]; eexists; reflexivity.
Defined.

(** ** How a run can end *)

Lemma first_map_href_raise (its : list Item) (e : exn) :
  first_map_href its = Raise e ->
  (its = [] /\ e = IndexError) \/
  (exists (it : Item) (rest : list Item),
     its = it :: rest /\ assets it !! "map"%string = None /\ e = KeyError (KStr "map")).
Proof.
  destruct its as [| it rest]; [intros [= <-]; left; auto |].
  rewrite first_map_href_cons. destruct (assets it !! "map"%string) eqn:Hmap; [discriminate |].
  intros [= <-]. right. exists it, rest. auto.
Qed.



(** X8: when a run ends with the [KeyError] of a missing label, the work
    before the failure has been done in full and nothing after it: the band
    was read and rendered once with the default colours, both datasets were
    opened and both closed, and no second figure was created. *)
Theorem missing_label_stops_before_second_figure
    (t : trace) (out : result namespace) (k : Z) :
  runs notebook t out ->
  out = Raise (KeyError (KInt k)) ->
  exists (src src' : handle) (w : Window.t) (X : ndarray) (table : gmap Z (list Z)),
    reads t = [(src, 1, w, X)] /\
    imshows t = [(X, no_kwargs)] /\
    length (figures t) = 1%nat /\
    colormap_reads t = [(src', 1, table)] /\
    table !! k = None /\
    map snd (opens t) = [src; src'] /\
    closes t = [src; src'].
Proof.
  intros Hrun Hout. notebook_cases Hrun.
  - injection Hout as ->. apply first_map_href_raise in Hfp.
    destruct Hfp as [[_ Hfp] | (_ & _ & _ & _ & Hfp)]; discriminate.
  - injection Hout as ->. apply normalize_colormap_raise in Hcm.
    destruct Hcm as (k' & [= <-] & _ & Hnone & _).
    exists src, src', w, X, table. simpl. auto 10.
  - discriminate.
Qed.

Lemma missing_label_stops_before_second_figure_witness :
  imshows holed_trace = [(demo_data, no_kwargs)] /\ closes holed_trace = [3; 6]%nat.
Proof.
  destruct (missing_label_stops_before_second_figure holed_trace holed_outcome 2
              holed_runs eq_refl)
    as (src & src' & w & X & table & Hreads & Him & _ & _ & _ & Hopens & Hcloses).
  assert (HX : X = demo_data).
  { assert (H : map snd (reads holed_trace) = [demo_data]) by reflexivity.
    rewrite Hreads in H. injection H as ->. reflexivity. }
  assert (Hsrc : [src; src'] = [3; 6]%nat).
  { rewrite <- Hopens. reflexivity. }
  rewrite Him, Hcloses, HX, Hsrc. split; reflexivity.
Defined.

(** ** Figures *)



(** ** What is printed *)

Lemma chars_app (s1 s2 : string) :
  String.list_ascii_of_string (s1 +:+ s2)
  = String.list_ascii_of_string s1 ++ String.list_ascii_of_string s2.
Proof. induction s1 as [| ch s1 IH]; simpl; [reflexivity | f_equal; exact IH]. Qed.

Lemma string_app_cancel_r (s1 s2 tail : string) : s1 +:+ tail = s2 +:+ tail -> s1 = s2.
Proof.
  intros H. apply (f_equal String.list_ascii_of_string) in H.
  rewrite !chars_app in H. apply app_inv_tail in H.
  rewrite <- (String.string_of_list_ascii_of_string s1).
  rewrite <- (String.string_of_list_ascii_of_string s2). f_equal. exact H.
Qed.

Lemma returned_line_inj (n m : nat) :
  "Returned " +:+ pretty n +:+ " Items" = "Returned " +:+ pretty m +:+ " Items" -> n = m.
Proof.
  intros H. apply (inj (String.app "Returned ")) in H.
  apply string_app_cancel_r in H. apply (inj pretty) in H. exact H.
Qed.

(** X10: every run, also one that then fails for want of items, prints as
    its first line the number of items the catalog answered: that line is
    "Returned n Items" exactly when the catalog answered [n] items. *)
Theorem first_line_counts_items (t : trace) (out : result namespace) :
  runs notebook t out ->
  exists its : list Item,
    items_answers t = [its] /\
    forall n : nat,
      head (printed t) = Some ("Returned " +:+ pretty n +:+ " Items") <-> length its = n.
Proof.
  intros Hrun.
  assert (Hhead : exists its, items_answers t = [its] /\
            head (printed t) = Some ("Returned " +:+ pretty (length its) +:+ " Items")).
  { notebook_cases Hrun; exists its; split; reflexivity. }
  destruct Hhead as (its & Hits & Hhead). exists its. split; [exact Hits |].
  intros n. rewrite Hhead. split.
  - intros H. apply (inj Some) in H. apply returned_line_inj, H.
  - intros <-. reflexivity.
Qed.

Lemma first_line_counts_items_witness :
  head (printed (fst (exec (replay empty_answers) 0 notebook)))
  = Some "Returned 0 Items"%string.
Proof.
  destruct (first_line_counts_items _ _ (exec_runs notebook (replay empty_answers) 0))
    as (its & Hits & Hline).
  apply (Hline 0%nat).
  assert (H : items_answers (fst (exec (replay empty_answers) 0 notebook)) = [[]])
    by reflexivity.
  rewrite H in Hits. injection Hits as <-. reflexivity.
Defined.

Lemma strip_query_prefix (url : string) :
  exists rest : string,
    url = strip_query url +:+ rest /\
    (rest = EmptyString \/ exists query, rest = String "?" query).
Proof.
  induction url as [| ch url (rest & Hurl & Hrest)]; simpl.
  - exists EmptyString. auto.
  - destruct (Ascii.eqb_spec ch "?") as [-> | _].
    + exists (String "?" url). split; [reflexivity |]. right. eauto.
    + exists rest. split; [| exact Hrest].
      change (String ch url = String ch (strip_query url +:+ rest)).
      rewrite <- Hurl. reflexivity.
Qed.

Lemma strip_query_clean (url : string) : count_char "?" (strip_query url) = 0%nat.
Proof.
  induction url as [| ch url IH]; simpl; [reflexivity |].
  destruct (Ascii.eqb ch "?") eqn:Hch; simpl; [reflexivity |].
  rewrite Hch. exact IH.
Qed.

Lemma strip_query_fixed (url : string) : count_char "?" url = 0%nat -> strip_query url = url.
Proof.
  induction url as [| ch url IH]; simpl; [reflexivity |].
  destruct (Ascii.eqb ch "?"); simpl; [discriminate |].
  intros H. f_equal. apply IH, H.
Qed.

(** X11: for every URL, [asset_href.split("?")[0]] raises nothing and gives
    the longest prefix of the URL without ['?']: the URL is that prefix
    followed by nothing or by a part that starts with ['?'].  Applied to
    its own result it changes nothing. *)
Theorem unsigned_part_longest_clean_prefix (fp : string) :
  exists shown rest : string,
    unsigned_part fp = Ok shown /\
    fp = shown +:+ rest /\
    count_char "?" shown = 0%nat /\
    (rest = EmptyString \/ exists query, rest = String "?" query) /\
    unsigned_part shown = Ok shown.
Proof.
  destruct (strip_query_prefix fp) as (rest & Hfp & Hrest).
  exists (strip_query fp), rest. split; [apply unsigned_part_strip |].
  split; [exact Hfp |]. split; [apply strip_query_clean |]. split; [exact Hrest |].
  rewrite unsigned_part_strip. f_equal. apply strip_query_fixed, strip_query_clean.
Qed.

(** ** Splitting and joining *)

(** X12: splitting a string at a character loses nothing: joining the pieces
    with that character gives the string back; no piece contains the
    character; and there is one piece more than there are occurrences of
    the character. *)
Theorem str_split_join (sep : Ascii.ascii) (s : string) :
  str_join sep (str_split sep s) = s /\
  Forall (fun piece => count_char sep piece = 0%nat) (str_split sep s) /\
  length (str_split sep s) = S (count_char sep s).
Proof.
  induction s as [| ch rest (Hjoin & Hclean & Hlen)]; simpl.
  - repeat split. repeat constructor.
  - destruct (str_split_cons sep rest) as (piece & pieces & Hsplit).
    rewrite Hsplit in Hjoin, Hclean, Hlen |- *.
    destruct (Ascii.eqb_spec ch sep) as [-> | Hne].
    + split; [| split].
      * simpl in *. rewrite Hjoin. reflexivity.
      * constructor; [reflexivity | exact Hclean].
      * simpl in *. lia.
    + split; [| split].
      * destruct pieces as [| piece' pieces]; simpl in *; rewrite <- Hjoin; reflexivity.
      * apply Forall_cons in Hclean. destruct Hclean as [Hpiece Hpieces].
        constructor; [| exact Hpieces]. simpl.
        destruct (Ascii.eqb_spec ch sep) as [-> | _]; [congruence | exact Hpiece].
      * simpl in *. lia.
Qed.
